(** * RAII owners of NDK binder handles: [binder_auto_utils.h]

    A shallow embedding of [ndk::SpAIBinder], the template
    [ndk::ScopedA<T, Destroy>] and its four subclasses.  Every method of the
    header becomes a computation over a [World]: the live C++ objects (one
    pointer field each, keyed by the object's address, so that two references
    to one object alias), the state of the external binder runtime, and the
    log of the calls made into that runtime. *)

From stdpp Require Import gmap list.

Local Open Scope N_scope.

(** ** Handles and external functions *)

(** A raw handle ([AIBinder*], [AStatus*], ...) and the address of a C++
    object are both machine addresses. *)
Abbreviation ptr := N (only parsing).
Abbreviation addr := N (only parsing).

Definition nullptr : ptr := 0.

(** The functions passed as the [Destroy] template argument of [ScopedA]. *)
Inductive Deleter :=
| AParcel_delete
| AStatus_delete
| AIBinder_DeathRecipient_delete
| AIBinder_Weak_delete.

(** One call into the flat C API of the binder runtime, with its argument. *)
Inductive Call :=
| incStrong (binder : ptr)
| decStrong (binder : ptr)
| destroy (d : Deleter) (t : ptr)
| isOk (status : ptr)
| promote (weak : ptr).

#[global] Instance Deleter_eq_dec : EqDecision Deleter.
Proof. solve_decision. Defined.

#[global] Instance Call_eq_dec : EqDecision Call.
Proof. solve_decision. Defined.

(** The runtime behind the C API.  The header only declares these functions;
    their effect on the runtime's own state [Ext] is a parameter. *)
Class Runtime (Ext : Type) := {
  rt_incStrong : ptr -> Ext -> Ext;
  rt_decStrong : ptr -> Ext -> Ext;
  rt_destroy : Deleter -> ptr -> Ext -> Ext;
  rt_isOk : ptr -> Ext -> bool;
  rt_promote : ptr -> Ext -> ptr * Ext;
}.

(** ** Objects *)

(** [class SpAIBinder { AIBinder* mBinder = nullptr; }] *)
Record SpAIBinder := { mBinder : ptr }.

(** [template <typename T, void (*Destroy)(T*)> class ScopedA { T* mT; }];
    the subclasses add no field. *)
Record ScopedA := { mT : ptr }.

#[global] Instance SpAIBinder_eq_dec : EqDecision SpAIBinder.
Proof. solve_decision. Defined.

#[global] Instance ScopedA_eq_dec : EqDecision ScopedA.
Proof. solve_decision. Defined.

(** ** Counting calls in a log *)

Definition count_call (c : Call) (l : list Call) : nat :=
  length (filter (fun x => x = c) l).

(** Net change of the strong count of [b] requested by a log. *)
Fixpoint strong_delta (b : ptr) (l : list Call) : Z :=
  match l with
  | [] => 0%Z
  | incStrong b' :: l' =>
      ((if decide (b' = b) then 1 else 0) + strong_delta b l')%Z
  | decStrong b' :: l' =>
      ((if decide (b' = b) then -1 else 0) + strong_delta b l')%Z
  | _ :: l' => strong_delta b l'
  end.

(** A log in which [AIBinder_incStrong] never receives [nullptr]. *)
Definition no_increment_of_null (new : list Call) : Prop :=
  count_call (incStrong nullptr) new = 0%nat.

(** The handles a log passes to [Destroy]. *)
Definition destroyed (d : Deleter) (l : list Call) : list ptr :=
  omap (fun c => match c with
                 | destroy d' t => if decide (d' = d) then Some t else None
                 | _ => None
                 end) l.

(** ** The world and its monad *)

Record World (Ext : Type) := mkWorld {
  ext : Ext;
  calls : list Call;
  binders : gmap N SpAIBinder;
  boxes : gmap N ScopedA;
}.

Arguments mkWorld {Ext} _ _ _ _.
Arguments ext {Ext} _.
Arguments calls {Ext} _.
Arguments binders {Ext} _.
Arguments boxes {Ext} _.

(** A computation returns a value and a new world, or is undefined (it used
    an object outside its lifetime). *)
Definition M (Ext A : Type) : Type := World Ext -> option (A * World Ext).

Definition ret {Ext A} (a : A) : M Ext A := fun w => Some (a, w).

Definition bind {Ext A B} (m : M Ext A) (k : A -> M Ext B) : M Ext B :=
  fun w => match m w with
           | Some (a, w') => k a w'
           | None => None
           end.

Declare Scope cpp_scope.
Delimit Scope cpp_scope with cpp.
Notation "'let*' x := c 'in' k" := (bind c (fun x => k))
  (at level 10, x name, c at level 100, k at level 200) : cpp_scope.
Notation "c ;; k" := (bind c (fun _ => k))
  (at level 100, k at level 200, right associativity) : cpp_scope.
Local Open Scope cpp_scope.

Section Model.
Context {Ext : Type} `{RT : Runtime Ext}.

(** A call into the runtime: logged, and applied to the runtime's state. *)
Definition extern (c : Call) (f : Ext -> Ext) : M Ext unit :=
  fun w => Some (tt, mkWorld (f (ext w)) (calls w ++ [c]) (binders w) (boxes w)).

Definition AIBinder_incStrong (binder : ptr) : M Ext unit :=
  extern (incStrong binder) (rt_incStrong binder).

Definition AIBinder_decStrong (binder : ptr) : M Ext unit :=
  extern (decStrong binder) (rt_decStrong binder).

Definition call_Destroy (Destroy : Deleter) (t : ptr) : M Ext unit :=
  extern (destroy Destroy t) (rt_destroy Destroy t).

Definition AStatus_isOk (status : ptr) : M Ext bool :=
  fun w => Some (rt_isOk status (ext w),
                 mkWorld (ext w) (calls w ++ [isOk status]) (binders w) (boxes w)).

Definition AIBinder_Weak_promote (weak : ptr) : M Ext ptr :=
  fun w => let (b, e) := rt_promote weak (ext w) in
           Some (b, mkWorld e (calls w ++ [promote weak]) (binders w) (boxes w)).

(** *** Object storage *)

(** Start the lifetime of an [SpAIBinder] at [this]; the storage must not
    hold a live one. *)
Definition SpAIBinder_init (this : addr) (v : ptr) : M Ext unit :=
  fun w => match binders w !! this with
           | Some _ => None
           | None => Some (tt, mkWorld (ext w) (calls w)
                                 (<[this := {| mBinder := v |}]> (binders w)) (boxes w))
           end.

Definition SpAIBinder_read (this : addr) : M Ext ptr :=
  fun w => match binders w !! this with
           | Some s => Some (mBinder s, w)
           | None => None
           end.

Definition SpAIBinder_write (this : addr) (v : ptr) : M Ext unit :=
  fun w => match binders w !! this with
           | Some _ => Some (tt, mkWorld (ext w) (calls w)
                                   (<[this := {| mBinder := v |}]> (binders w)) (boxes w))
           | None => None
           end.

Definition SpAIBinder_end (this : addr) : M Ext unit :=
  fun w => match binders w !! this with
           | Some _ => Some (tt, mkWorld (ext w) (calls w)
                                   (delete this (binders w)) (boxes w))
           | None => None
           end.

Definition ScopedA_init (this : addr) (v : ptr) : M Ext unit :=
  fun w => match boxes w !! this with
           | Some _ => None
           | None => Some (tt, mkWorld (ext w) (calls w) (binders w)
                                 (<[this := {| mT := v |}]> (boxes w)))
           end.

Definition ScopedA_read (this : addr) : M Ext ptr :=
  fun w => match boxes w !! this with
           | Some s => Some (mT s, w)
           | None => None
           end.

Definition ScopedA_write (this : addr) (v : ptr) : M Ext unit :=
  fun w => match boxes w !! this with
           | Some _ => Some (tt, mkWorld (ext w) (calls w) (binders w)
                                   (<[this := {| mT := v |}]> (boxes w)))
           | None => None
           end.

Definition ScopedA_end (this : addr) : M Ext unit :=
  fun w => match boxes w !! this with
           | Some _ => Some (tt, mkWorld (ext w) (calls w) (binders w)
                                   (delete this (boxes w)))
           | None => None
           end.

(** ** [class SpAIBinder] *)

(** [explicit SpAIBinder(AIBinder* binder = nullptr) : mBinder(binder) {}] *)
Definition SpAIBinder_ctor (this : addr) (binder : ptr) : M Ext unit :=
  SpAIBinder_init this binder.

(** [SpAIBinder(std::nullptr_t) : SpAIBinder() {}] *)
Definition SpAIBinder_ctor_null (this : addr) : M Ext unit :=
  SpAIBinder_ctor this nullptr.

(** [void set(AIBinder* binder)]:
    [if (mBinder != nullptr) AIBinder_decStrong(mBinder); mBinder = binder;] *)
Definition SpAIBinder_set (this : addr) (binder : ptr) : M Ext unit :=
  let* cur := SpAIBinder_read this in
  (if negb (cur =? nullptr)
   then (let* arg := SpAIBinder_read this in AIBinder_decStrong arg)
   else ret tt) ;;
  SpAIBinder_write this binder.

(** [SpAIBinder& operator=(const SpAIBinder& other)]:
    [AIBinder_incStrong(other.mBinder); set(other.mBinder); return *this;] *)
Definition SpAIBinder_assign (this other : addr) : M Ext addr :=
  let* b := SpAIBinder_read other in
  AIBinder_incStrong b ;;
  let* b' := SpAIBinder_read other in
  SpAIBinder_set this b' ;;
  ret this.

(** [SpAIBinder(const SpAIBinder& other) { *this = other; }]: no member
    initializer, so [mBinder] takes its default member initializer
    [nullptr] before the body runs. *)
Definition SpAIBinder_copy (this other : addr) : M Ext unit :=
  SpAIBinder_init this nullptr ;;
  SpAIBinder_assign this other ;;
  ret tt.

(** [~SpAIBinder() { set(nullptr); }], after which the lifetime ends. *)
Definition SpAIBinder_dtor (this : addr) : M Ext unit :=
  SpAIBinder_set this nullptr ;;
  SpAIBinder_end this.

(** [AIBinder* get() const { return mBinder; }] *)
Definition SpAIBinder_get (this : addr) : M Ext ptr :=
  SpAIBinder_read this.

(** ** [class ScopedA<T, Destroy>] *)

Section ScopedA.
Variable Destroy : Deleter.

(** [explicit ScopedA(T* t = nullptr) : mT(t) {}] *)
Definition ScopedA_ctor (this : addr) (t : ptr) : M Ext unit :=
  ScopedA_init this t.

(** [void set(T* t) { Destroy(mT); mT = t; }] *)
Definition ScopedA_set (this : addr) (t : ptr) : M Ext unit :=
  let* cur := ScopedA_read this in
  call_Destroy Destroy cur ;;
  ScopedA_write this t.

(** [~ScopedA() { set(nullptr); }], after which the lifetime ends. *)
Definition ScopedA_dtor (this : addr) : M Ext unit :=
  ScopedA_set this nullptr ;;
  ScopedA_end this.

(** [T* get() { return mT; }] *)
Definition ScopedA_get (this : addr) : M Ext ptr :=
  ScopedA_read this.

(** [ScopedA(ScopedA&&) = default;]: the defaulted move constructor
    move-initializes each member from the matching member of the
    argument, and moving from a raw pointer copies it: [mT(other.mT)].
    The argument is not written. *)
Definition ScopedA_move (this other : addr) : M Ext unit :=
  let* t := ScopedA_read other in
  ScopedA_init this t.

(** A run of [set] calls, in order. *)
Fixpoint ScopedA_sets (this : addr) (ts : list ptr) : M Ext unit :=
  match ts with
  | [] => ret tt
  | t :: ts' => ScopedA_set this t ;; ScopedA_sets this ts'
  end.
End ScopedA.

(** ** The subclasses of [ScopedA] *)

(** [class ScopedAParcel : public ScopedA<AParcel, AParcel_delete>]:
    [explicit ScopedAParcel(AParcel* a = nullptr) : ScopedA(a) {}],
    [~ScopedAParcel() {}] followed by the base destructor, and
    [ScopedAParcel(ScopedAParcel&&) = default]. *)
Definition ScopedAParcel_ctor := ScopedA_ctor.
Definition ScopedAParcel_dtor := ScopedA_dtor AParcel_delete.
Definition ScopedAParcel_move := ScopedA_move.

(** [class ScopedAStatus : public ScopedA<AStatus, AStatus_delete>] *)
Definition ScopedAStatus_ctor := ScopedA_ctor.
Definition ScopedAStatus_dtor := ScopedA_dtor AStatus_delete.
Definition ScopedAStatus_move := ScopedA_move.

(** [bool isOk() { return get() != nullptr && AStatus_isOk(get()); }];
    [&&] evaluates its right operand only when the left one is true. *)
Definition ScopedAStatus_isOk (this : addr) : M Ext bool :=
  let* p := ScopedA_get this in
  if negb (p =? nullptr)
  then (let* q := ScopedA_get this in AStatus_isOk q)
  else ret false.

(** [class ScopedAIBinder_DeathRecipient
      : public ScopedA<AIBinder_DeathRecipient, AIBinder_DeathRecipient_delete>] *)
Definition ScopedAIBinder_DeathRecipient_ctor := ScopedA_ctor.
Definition ScopedAIBinder_DeathRecipient_dtor :=
  ScopedA_dtor AIBinder_DeathRecipient_delete.
Definition ScopedAIBinder_DeathRecipient_move := ScopedA_move.

(** [class ScopedAIBinder_Weak : public ScopedA<AIBinder_Weak, AIBinder_Weak_delete>] *)
Definition ScopedAIBinder_Weak_ctor := ScopedA_ctor.
Definition ScopedAIBinder_Weak_dtor := ScopedA_dtor AIBinder_Weak_delete.
Definition ScopedAIBinder_Weak_move := ScopedA_move.

(** [SpAIBinder promote() { return SpAIBinder(AIBinder_Weak_promote(get())); }]
    The returned prvalue initializes the caller's object at [result]
    directly; no copy of it is made. *)
Definition ScopedAIBinder_Weak_promote (this result : addr) : M Ext unit :=
  let* w := ScopedA_get this in
  let* b := AIBinder_Weak_promote w in
  SpAIBinder_ctor result b.

(** [n] calls of [promote()], the [i]-th result built at [results !! i]. *)
Fixpoint ScopedAIBinder_Weak_promotes (this : addr) (results : list addr) : M Ext unit :=
  match results with
  | [] => ret tt
  | r :: rs => ScopedAIBinder_Weak_promote this r ;;
               ScopedAIBinder_Weak_promotes this rs
  end.

End Model.

(** ** A reference-counting runtime *)

(** Modelled from the spec: the external binder runtime, which the header
    only calls.  It keeps a strong count per binder, the binder each weak
    token refers to, the statuses that report success and the resources
    released so far; every operation is a no-op (or answers negatively) on
    the null handle, and promotion succeeds, taking one strong count, exactly
    when the referent still has one. *)
Record Kernel := mkKernel {
  strong : gmap N nat;
  referent : gmap N N;
  ok : list N;
  released : list (Deleter * N);
}.

Definition strong_count (k : Kernel) (b : ptr) : nat :=
  default 0%nat (strong k !! b).

Definition k_incStrong (b : ptr) (k : Kernel) : Kernel :=
  if b =? nullptr then k
  else mkKernel (<[b := S (strong_count k b)]> (strong k))
                (referent k) (ok k) (released k).

Definition k_decStrong (b : ptr) (k : Kernel) : Kernel :=
  if b =? nullptr then k
  else mkKernel (<[b := Nat.pred (strong_count k b)]> (strong k))
                (referent k) (ok k) (released k).

Definition k_destroy (d : Deleter) (t : ptr) (k : Kernel) : Kernel :=
  if t =? nullptr then k
  else mkKernel (strong k) (referent k) (ok k) (released k ++ [(d, t)]).

Definition k_isOk (s : ptr) (k : Kernel) : bool :=
  negb (s =? nullptr) && bool_decide (s ∈ ok k).

Definition k_promote (t : ptr) (k : Kernel) : ptr * Kernel :=
  if t =? nullptr then (nullptr, k)
  else match referent k !! t with
       | Some b => if (0 <? strong_count k b)%nat
                   then (b, k_incStrong b k)
                   else (nullptr, k)
       | None => (nullptr, k)
       end.

#[global] Instance Kernel_runtime : Runtime Kernel := {
  rt_incStrong := k_incStrong;
  rt_decStrong := k_decStrong;
  rt_destroy := k_destroy;
  rt_isOk := k_isOk;
  rt_promote := k_promote;
}.

(** A runtime with one binder [7] of strong count [1], a weak token [9] for
    it, a weak token [8] whose referent [6] is gone, and a successful status
    [5]. *)
Definition kernel0 : Kernel :=
  mkKernel {[ 7 := 1%nat ]} {[ 9 := 7; 8 := 6 ]} [5] [].

(** A world over [kernel0] with the given live objects and an empty log. *)
Definition world0 (bs : list (addr * ptr)) (xs : list (addr * ptr)) : World Kernel :=
  mkWorld kernel0 []
          (list_to_map (prod_map id Build_SpAIBinder <$> bs))
          (list_to_map (prod_map id Build_ScopedA <$> xs)).

(** ** Lifecycles the properties speak about *)

Section Lifecycles.
Context {Ext : Type} `{RT : Runtime Ext}.

(** Copy-construct [b] from [a], then destroy both, [a] first when
    [a_first] holds. *)
Definition copy_then_destroy_both (a b : addr) (a_first : bool) : M Ext unit :=
  SpAIBinder_copy b a ;;
  if a_first
  then (SpAIBinder_dtor a ;; SpAIBinder_dtor b)
  else (SpAIBinder_dtor b ;; SpAIBinder_dtor a).

(** Move-construct [dst] from [src], destroy the moved-from [src], then
    destroy [dst]. *)
Definition move_then_destroy_both (Destroy : Deleter) (src dst : addr) : M Ext unit :=
  ScopedA_move dst src ;;
  ScopedA_dtor Destroy src ;;
  ScopedA_dtor Destroy dst.

(** Construct a box on [t], [set] it to each of [ts] in turn, destroy it. *)
Definition box_lifecycle (Destroy : Deleter) (this : addr) (t : ptr) (ts : list ptr)
  : M Ext unit :=
  ScopedA_ctor this t ;;
  ScopedA_sets Destroy this ts ;;
  ScopedA_dtor Destroy this.

(** Promote the weak box once per element of [results], then destroy it. *)
Definition promote_then_destroy (this : addr) (results : list addr) : M Ext unit :=
  ScopedAIBinder_Weak_promotes this results ;;
  ScopedAIBinder_Weak_dtor this.
End Lifecycles.

(** ** The output slot, and programs over several owners *)

Section Clients.
Context {Ext : Type} `{RT : Runtime Ext}.

(** [AIBinder** getR() { return &mBinder; }]: the address of the only
    member, which is the address of the object.  The member is not read;
    the object must be live. *)
Definition SpAIBinder_getR (this : addr) : M Ext addr :=
  let* _ := SpAIBinder_read this in ret this.

(** [T** getR() { return &mT; }] *)
Definition ScopedA_getR (this : addr) : M Ext addr :=
  let* _ := ScopedA_read this in ret this.

(** [*slot = value;], the store a callee such as the [SomeInitFunction] of
    the header's comments makes through the result of [getR()]. *)
Definition SpAIBinder_store (slot : addr) (value : ptr) : M Ext unit :=
  SpAIBinder_write slot value.

Definition ScopedA_store (slot : addr) (value : ptr) : M Ext unit :=
  ScopedA_write slot value.

(** [SpAIBinder a(t); *a.getR() = v;] and the end of [a]. *)
Definition SpAIBinder_fill (this : addr) (t v : ptr) : M Ext unit :=
  SpAIBinder_ctor this t ;;
  let* slot := SpAIBinder_getR this in
  SpAIBinder_store slot v ;;
  SpAIBinder_dtor this.

(** [ScopedA<T, Destroy> a(t); *a.getR() = v;] and the end of [a]. *)
Definition ScopedA_fill (Destroy : Deleter) (this : addr) (t v : ptr) : M Ext unit :=
  ScopedA_ctor this t ;;
  let* slot := ScopedA_getR this in
  ScopedA_store slot v ;;
  ScopedA_dtor Destroy this.

(** A run of [SpAIBinder::set] calls, in order. *)
Fixpoint SpAIBinder_sets (this : addr) (bs : list ptr) : M Ext unit :=
  match bs with
  | [] => ret tt
  | b :: bs' => SpAIBinder_set this b ;; SpAIBinder_sets this bs'
  end.

(** [SpAIBinder a(t); a.set(b1); ... a.set(bn);] and the end of [a]. *)
Definition binder_lifecycle (this : addr) (t : ptr) (bs : list ptr) : M Ext unit :=
  SpAIBinder_ctor this t ;;
  SpAIBinder_sets this bs ;;
  SpAIBinder_dtor this.

(** [SpAIBinder a(nullptr);] through the [std::nullptr_t] constructor, and
    the end of [a]. *)
Definition null_binder_lifecycle (this : addr) : M Ext unit :=
  SpAIBinder_ctor_null this ;;
  SpAIBinder_dtor this.

(** [AIBinder_incStrong(other.get()); SpAIBinder a(other.get());], the use
    of [get()] its comment asks for. *)
Definition adopt_incremented (this other : addr) : M Ext unit :=
  let* h := SpAIBinder_get other in
  AIBinder_incStrong h ;;
  let* h' := SpAIBinder_get other in
  SpAIBinder_ctor this h'.

(** [SpAIBinder b(a.get());] without the increment, and the end of both. *)
Definition adopt_raw_then_destroy_both (a b : addr) : M Ext unit :=
  let* h := SpAIBinder_get a in
  SpAIBinder_ctor b h ;;
  SpAIBinder_dtor a ;;
  SpAIBinder_dtor b.

(** [a.set(a.get());] on a box, and the end of [a]. *)
Definition reset_to_held_then_destroy (Destroy : Deleter) (this : addr) : M Ext unit :=
  let* t := ScopedA_get this in
  ScopedA_set Destroy this t ;;
  ScopedA_dtor Destroy this.

(** [{ SpAIBinder r = weak.promote(); }]: the result is built at [result]
    and destroyed at the end of the block. *)
Definition promote_and_drop (this result : addr) : M Ext unit :=
  ScopedAIBinder_Weak_promote this result ;;
  SpAIBinder_dtor result.

(** [n] calls of [isOk()], collecting the answers. *)
Fixpoint ScopedAStatus_isOks (this : addr) (n : nat) : M Ext (list bool) :=
  match n with
  | O => ret []
  | S n' => let* r := ScopedAStatus_isOk this in
            let* rs := ScopedAStatus_isOks this n' in
            ret (r :: rs)
  end.

(** The operations of [SpAIBinder] that keep the count of owners: copy
    construction, copy assignment and destruction. *)
Inductive SpOp :=
| OpCopy (this other : addr)
| OpAssign (this other : addr)
| OpDtor (this : addr).

Definition run_op (o : SpOp) : M Ext unit :=
  match o with
  | OpCopy this other => SpAIBinder_copy this other
  | OpAssign this other => SpAIBinder_assign this other ;; ret tt
  | OpDtor this => SpAIBinder_dtor this
  end.

Fixpoint run_ops (os : list SpOp) : M Ext unit :=
  match os with
  | [] => ret tt
  | o :: os' => run_op o ;; run_ops os'
  end.
End Clients.

(** The number of live [SpAIBinder] objects that hold [h]. *)
Definition owners (h : ptr) (m : gmap N SpAIBinder) : nat :=
  size (filter (fun kv => mBinder kv.2 = h) m).

(** A call that moves a strong count. *)
Definition is_count_call (c : Call) : bool :=
  match c with
  | incStrong _ | decStrong _ => true
  | _ => false
  end.

(** ** Evaluating the methods *)

Section Steps.
Context {Ext : Type} `{RT : Runtime Ext}.
Implicit Types (w : World Ext) (this other : N).

Lemma World_eta w : mkWorld (ext w) (calls w) (binders w) (boxes w) = w.
Proof. by destruct w. Qed.

Lemma bind_Some {A B} (m : M Ext A) (k : A -> M Ext B) w a w1 :
  m w = Some (a, w1) -> bind m k w = k a w1.
Proof. unfold bind. by intros ->. Qed.

Lemma SpAIBinder_read_live w this s :
  binders w !! this = Some s -> SpAIBinder_read this w = Some (mBinder s, w).
Proof. unfold SpAIBinder_read. by intros ->. Qed.

(** [set] releases the held handle when it is not null, then stores. *)
Lemma SpAIBinder_set_eval w this s binder :
  binders w !! this = Some s ->
  SpAIBinder_set this binder w =
    Some (tt, if mBinder s =? nullptr
              then mkWorld (ext w) (calls w)
                     (<[this := {| mBinder := binder |}]> (binders w)) (boxes w)
              else mkWorld (rt_decStrong (mBinder s) (ext w))
                     (calls w ++ [decStrong (mBinder s)])
                     (<[this := {| mBinder := binder |}]> (binders w)) (boxes w)).
Proof.
  intros Hs. unfold SpAIBinder_set.
  rewrite (bind_Some _ _ _ _ _ (SpAIBinder_read_live _ _ _ Hs)).
  destruct (mBinder s =? nullptr); cbn.
  - unfold bind, ret, SpAIBinder_write. by rewrite Hs.
  - unfold bind at 1 2. rewrite (SpAIBinder_read_live _ _ _ Hs).
    unfold AIBinder_decStrong, extern, SpAIBinder_write; cbn. by rewrite Hs.
Qed.

Lemma SpAIBinder_assign_eval w this other s o :
  binders w !! this = Some s ->
  binders w !! other = Some o ->
  SpAIBinder_assign this other w =
    Some (this,
          if mBinder s =? nullptr
          then mkWorld (rt_incStrong (mBinder o) (ext w))
                 (calls w ++ [incStrong (mBinder o)])
                 (<[this := o]> (binders w)) (boxes w)
          else mkWorld (rt_decStrong (mBinder s) (rt_incStrong (mBinder o) (ext w)))
                 (calls w ++ [incStrong (mBinder o); decStrong (mBinder s)])
                 (<[this := o]> (binders w)) (boxes w)).
Proof.
  intros Hs Ho. unfold SpAIBinder_assign.
  rewrite (bind_Some _ _ _ _ _ (SpAIBinder_read_live _ _ _ Ho)).
  unfold bind at 1. unfold AIBinder_incStrong, extern.
  set (w1 := mkWorld _ _ _ _).
  assert (H1 : binders w1 !! other = Some o) by done.
  assert (H2 : binders w1 !! this = Some s) by done.
  rewrite (bind_Some _ _ _ _ _ (SpAIBinder_read_live _ _ _ H1)).
  unfold bind. rewrite (SpAIBinder_set_eval _ _ _ _ H2). unfold ret.
  destruct o as [b]. subst w1; cbn.
  destruct (mBinder s =? nullptr); cbn; [done|].
  by rewrite <- app_assoc.
Qed.

Lemma SpAIBinder_copy_eval w this other o :
  binders w !! this = None ->
  binders w !! other = Some o ->
  SpAIBinder_copy this other w =
    Some (tt, mkWorld (rt_incStrong (mBinder o) (ext w))
                (calls w ++ [incStrong (mBinder o)])
                (<[this := o]> (binders w)) (boxes w)).
Proof.
  intros Hn Ho. unfold SpAIBinder_copy, bind at 1, SpAIBinder_init.
  rewrite Hn. set (w1 := mkWorld _ _ _ _).
  assert (Hne : this <> other) by congruence.
  assert (H1 : binders w1 !! this = Some {| mBinder := nullptr |})
    by (subst w1; cbn; by rewrite lookup_insert_eq).
  assert (H2 : binders w1 !! other = Some o)
    by (subst w1; cbn; by rewrite lookup_insert_ne).
  unfold bind. rewrite (SpAIBinder_assign_eval _ _ _ _ _ H1 H2).
  subst w1; cbn. unfold ret. by rewrite insert_insert_eq.
Qed.

Lemma SpAIBinder_dtor_eval w this s :
  binders w !! this = Some s ->
  SpAIBinder_dtor this w =
    Some (tt, if mBinder s =? nullptr
              then mkWorld (ext w) (calls w) (delete this (binders w)) (boxes w)
              else mkWorld (rt_decStrong (mBinder s) (ext w))
                     (calls w ++ [decStrong (mBinder s)])
                     (delete this (binders w)) (boxes w)).
Proof.
  intros Hs. unfold SpAIBinder_dtor, bind.
  rewrite (SpAIBinder_set_eval _ _ _ _ Hs). unfold SpAIBinder_end.
  destruct (mBinder s =? nullptr); cbn;
    by rewrite lookup_insert_eq, delete_insert_eq.
Qed.

Lemma ScopedA_read_live w this s :
  boxes w !! this = Some s -> ScopedA_read this w = Some (mT s, w).
Proof. unfold ScopedA_read. by intros ->. Qed.

(** [set] passes the held handle, null or not, to [Destroy], then stores. *)
Lemma ScopedA_set_eval d w this s t :
  boxes w !! this = Some s ->
  ScopedA_set d this t w =
    Some (tt, mkWorld (rt_destroy d (mT s) (ext w))
                (calls w ++ [destroy d (mT s)])
                (binders w) (<[this := {| mT := t |}]> (boxes w))).
Proof.
  intros Hs. unfold ScopedA_set.
  rewrite (bind_Some _ _ _ _ _ (ScopedA_read_live _ _ _ Hs)).
  unfold bind, call_Destroy, extern, ScopedA_write; cbn. by rewrite Hs.
Qed.

Lemma ScopedA_dtor_eval d w this s :
  boxes w !! this = Some s ->
  ScopedA_dtor d this w =
    Some (tt, mkWorld (rt_destroy d (mT s) (ext w))
                (calls w ++ [destroy d (mT s)])
                (binders w) (delete this (boxes w))).
Proof.
  intros Hs. unfold ScopedA_dtor, bind.
  rewrite (ScopedA_set_eval _ _ _ _ _ Hs). unfold ScopedA_end; cbn.
  by rewrite lookup_insert_eq, delete_insert_eq.
Qed.

(** The defaulted move constructor leaves its argument as it was. *)
Lemma ScopedA_move_eval w this other s :
  boxes w !! this = None ->
  boxes w !! other = Some s ->
  ScopedA_move this other w =
    Some (tt, mkWorld (ext w) (calls w) (binders w) (<[this := s]> (boxes w))).
Proof.
  intros Hn Hs. unfold ScopedA_move.
  rewrite (bind_Some _ _ _ _ _ (ScopedA_read_live _ _ _ Hs)).
  unfold ScopedA_init. rewrite Hn. by destruct s.
Qed.

(** A run of [set] calls destroys, in order, the handle held before it and
    every argument but the last, which the box then holds. *)
Lemma ScopedA_sets_eval d this ts : forall w t,
  boxes w !! this = Some {| mT := t |} ->
  exists w',
    ScopedA_sets d this ts w = Some (tt, w') /\
    calls w' = calls w ++ (destroy d <$> removelast (t :: ts)) /\
    boxes w' = <[this := {| mT := default t (last ts) |}]> (boxes w) /\
    binders w' = binders w.
Proof.
  induction ts as [|t' ts IH]; intros w t Hs.
  - exists w. cbn. rewrite app_nil_r. by rewrite insert_id.
  - cbn [ScopedA_sets]. unfold bind at 1.
    rewrite (ScopedA_set_eval _ _ _ _ _ Hs). cbn [mT].
    set (w1 := mkWorld _ _ _ _).
    destruct (IH w1 t') as (w' & Hrun & Hcalls & Hboxes & Hbinders).
    { subst w1; cbn. by rewrite lookup_insert_eq. }
    exists w'. split; [done|]. rewrite Hcalls, Hboxes, Hbinders.
    subst w1; cbn [calls boxes binders].
    rewrite insert_insert_eq, <- app_assoc.
    split_and!; [done| |done].
    rewrite last_cons. by destruct (last ts).
Qed.

Lemma ScopedAStatus_isOk_eval w this s :
  boxes w !! this = Some s ->
  ScopedAStatus_isOk this w =
    Some (if mT s =? nullptr then (false, w)
          else (rt_isOk (mT s) (ext w),
                mkWorld (ext w) (calls w ++ [isOk (mT s)]) (binders w) (boxes w))).
Proof.
  intros Hs. unfold ScopedAStatus_isOk, ScopedA_get.
  rewrite (bind_Some _ _ _ _ _ (ScopedA_read_live _ _ _ Hs)).
  destruct (mT s =? nullptr); cbn; [done|].
  by rewrite (bind_Some _ _ _ _ _ (ScopedA_read_live _ _ _ Hs)).
Qed.

Lemma ScopedAIBinder_Weak_promote_eval w this result s :
  boxes w !! this = Some s ->
  binders w !! result = None ->
  ScopedAIBinder_Weak_promote this result w =
    Some (tt, mkWorld (rt_promote (mT s) (ext w)).2
                (calls w ++ [promote (mT s)])
                (<[result := {| mBinder := (rt_promote (mT s) (ext w)).1 |}]> (binders w))
                (boxes w)).
Proof.
  intros Hs Hn. unfold ScopedAIBinder_Weak_promote, ScopedA_get.
  rewrite (bind_Some _ _ _ _ _ (ScopedA_read_live _ _ _ Hs)).
  unfold bind, AIBinder_Weak_promote, SpAIBinder_ctor, SpAIBinder_init.
  destruct (rt_promote (mT s) (ext w)) as [b e]; cbn. by rewrite Hn.
Qed.

(** Repeated promotion logs one [promote] call per result, never writes
    the box and starts the lifetime of each result. *)
Lemma ScopedAIBinder_Weak_promotes_eval this s results : forall w,
  boxes w !! this = Some s ->
  NoDup results ->
  (forall r, r ∈ results -> binders w !! r = None) ->
  exists w',
    ScopedAIBinder_Weak_promotes this results w = Some (tt, w') /\
    calls w' = calls w ++ replicate (length results) (promote (mT s)) /\
    boxes w' = boxes w.
Proof.
  induction results as [|r rs IH]; intros w Hs Hnd Hfresh.
  - exists w. cbn. by rewrite app_nil_r.
  - apply NoDup_cons in Hnd as [Hr Hnd].
    cbn [ScopedAIBinder_Weak_promotes]. unfold bind at 1.
    rewrite (ScopedAIBinder_Weak_promote_eval _ _ _ _ Hs)
      by (apply Hfresh; left).
    set (w1 := mkWorld _ _ _ _).
    destruct (IH w1) as (w' & Hrun & Hcalls & Hboxes); [done|done| |].
    { intros r' Hr'. subst w1; cbn. rewrite lookup_insert_ne.
      - apply Hfresh. by right.
      - intros ->. done. }
    exists w'. split; [done|]. rewrite Hcalls, Hboxes. subst w1; cbn.
    by rewrite <- app_assoc.
Qed.

End Steps.

(** ** Facts about logs *)

Lemma count_call_app c l1 l2 :
  count_call c (l1 ++ l2) = (count_call c l1 + count_call c l2)%nat.
Proof. unfold count_call. by rewrite filter_app, length_app. Qed.

Lemma count_call_cons c c' l :
  count_call c (c' :: l) =
    ((if decide (c' = c) then 1 else 0) + count_call c l)%nat.
Proof. unfold count_call. rewrite filter_cons. by case_decide. Qed.

Lemma count_call_replicate_ne c c' n :
  c' <> c -> count_call c (replicate n c') = 0%nat.
Proof.
  intros Hne. induction n as [|n IH]; [done|].
  cbn [replicate]. rewrite count_call_cons, IH. by case_decide.
Qed.

(** In a log of [Destroy] calls a handle is counted as often as it occurs
    among the arguments. *)
Lemma count_call_destroy d h (l : list N) :
  count_call (destroy d h) (destroy d <$> l) = length (filter (fun x => x = h) l).
Proof.
  induction l as [|x l IH]; [done|].
  rewrite fmap_cons, count_call_cons, filter_cons, IH.
  repeat case_decide; simplify_eq; done.
Qed.

Lemma destroyed_app d l1 l2 :
  destroyed d (l1 ++ l2) = destroyed d l1 ++ destroyed d l2.
Proof. unfold destroyed. apply omap_app. Qed.

Lemma destroyed_destroy d (l : list N) : destroyed d (destroy d <$> l) = l.
Proof.
  induction l as [|x l IH]; [done|].
  unfold destroyed in *. cbn. case_decide; [|done]. by rewrite IH.
Qed.

Lemma destroyed_replicate_promote d n t :
  destroyed d (replicate n (promote t)) = [].
Proof. induction n as [|n IH]; [done|]. by cbn. Qed.

(** A handle that is not null and is stored once occurs once. *)
Lemma stored_once (h : N) (l : list N) :
  NoDup (filter (fun x => x <> nullptr) l) ->
  h ∈ l -> h <> nullptr ->
  length (filter (fun x => x = h) l) = 1%nat.
Proof.
  intros Hnd Hin Hh. induction l as [|x l IH]; [by apply elem_of_nil in Hin|].
  rewrite filter_cons in Hnd. rewrite filter_cons.
  destruct (decide (x = h)) as [->|Hne].
  - rewrite decide_True in Hnd by done. apply NoDup_cons in Hnd as [Hnotin _].
    cbn. f_equal.
    destruct (filter (fun x => x = h) l) as [|y ys] eqn:E; [done|].
    assert (Hy : y ∈ filter (fun x => x = h) l) by (rewrite E; left).
    apply list_elem_of_filter in Hy as [-> Hy].
    exfalso. by apply Hnotin, list_elem_of_filter.
  - apply elem_of_cons in Hin as [->|Hin]; [done|].
    apply IH; [|done]. case_decide; [by apply NoDup_cons in Hnd as [_ ?]|done].
Qed.

(** ** Properties of [SpAIBinder] *)

Section SpAIBinder_properties.
Context {Ext : Type} `{RT : Runtime Ext}.
Implicit Types (w : World Ext) (this other a b : N) (H : N).

(** C9: copy construction from any source [s] never calls
    [AIBinder_decStrong]: the new object's [mBinder] is [nullptr] when
    [operator=] runs, so [set] skips its release branch, and afterwards the
    new object holds the handle of [s]. *)
Theorem copy_construction_never_decrements w this other s :
  binders w !! other = Some s ->
  binders w !! this = None ->
  exists w0 w',
    SpAIBinder_init this nullptr w = Some (tt, w0) /\
    binders w0 !! this = Some {| mBinder := nullptr |} /\
    SpAIBinder_assign this other w0 = Some (this, w') /\
    SpAIBinder_copy this other w = Some (tt, w') /\
    calls w' = calls w ++ [incStrong (mBinder s)] /\
    (forall h, count_call (decStrong h) (calls w') = count_call (decStrong h) (calls w)) /\
    binders w' !! this = Some s /\
    binders w' !! other = Some s.
Proof.
  intros Ho Hn. assert (Hne : this <> other) by congruence.
  set (w0 := mkWorld (ext w) (calls w)
               (<[this := {| mBinder := nullptr |}]> (binders w)) (boxes w)).
  assert (H0 : binders w0 !! this = Some {| mBinder := nullptr |})
    by (subst w0; cbn; by rewrite lookup_insert_eq).
  assert (H1 : binders w0 !! other = Some s)
    by (subst w0; cbn; by rewrite lookup_insert_ne).
  exists w0. eexists. split_and!.
  - unfold SpAIBinder_init. by rewrite Hn.
  - done.
  - rewrite (SpAIBinder_assign_eval _ _ _ _ _ H0 H1).
    subst w0; cbn. by rewrite insert_insert_eq.
  - by apply SpAIBinder_copy_eval.
  - done.
  - intros h. cbn [calls]. rewrite count_call_app, count_call_cons.
    rewrite decide_False by done. cbn. lia.
  - cbn. by rewrite lookup_insert_eq.
  - cbn. by rewrite lookup_insert_ne.
Qed.

(** C5: for [a] holding a non-null [H], copy-constructing [b] from [a] and
    destroying both makes exactly one [AIBinder_incStrong(H)] call, at the
    copy, and exactly two [AIBinder_decStrong(H)] calls, one per
    destructor; with the unit [a] owned the balance is zero. *)
Theorem copy_then_destroy_both_balanced w a b H (a_first : bool) :
  H <> nullptr ->
  binders w !! a = Some {| mBinder := H |} ->
  binders w !! b = None ->
  exists w1 w2 w',
    SpAIBinder_copy b a w = Some (tt, w1) /\
    calls w1 = calls w ++ [incStrong H] /\
    binders w1 !! a = Some {| mBinder := H |} /\
    binders w1 !! b = Some {| mBinder := H |} /\
    SpAIBinder_dtor (if a_first then a else b) w1 = Some (tt, w2) /\
    calls w2 = calls w1 ++ [decStrong H] /\
    SpAIBinder_dtor (if a_first then b else a) w2 = Some (tt, w') /\
    calls w' = calls w2 ++ [decStrong H] /\
    copy_then_destroy_both a b a_first w = Some (tt, w') /\
    binders w' !! a = None /\
    binders w' !! b = None /\
    exists new,
      calls w' = calls w ++ new /\
      count_call (incStrong H) new = 1%nat /\
      count_call (decStrong H) new = 2%nat /\
      (1 + strong_delta H new = 0)%Z.
Proof.
  intros HH Ha Hb. assert (Hne : a <> b) by congruence.
  assert (Hnz : (H =? nullptr) = false) by by apply N.eqb_neq.
  pose proof (SpAIBinder_copy_eval _ _ _ _ Hb Ha) as Hcopy. cbn [mBinder] in Hcopy.
  set (w1 := mkWorld _ _ _ _) in Hcopy.
  assert (Ha1 : binders w1 !! a = Some {| mBinder := H |})
    by (subst w1; cbn; by rewrite lookup_insert_ne).
  assert (Hb1 : binders w1 !! b = Some {| mBinder := H |})
    by (subst w1; cbn; by rewrite lookup_insert_eq).
  set (x := if a_first then a else b). set (y := if a_first then b else a).
  assert (Hxy : x <> y) by (subst x y; by destruct a_first).
  assert (Hx1 : binders w1 !! x = Some {| mBinder := H |})
    by (subst x; by destruct a_first).
  assert (Hy1 : binders w1 !! y = Some {| mBinder := H |})
    by (subst y; by destruct a_first).
  pose proof (SpAIBinder_dtor_eval _ _ _ Hx1) as Hdx.
  cbn [mBinder] in Hdx. rewrite Hnz in Hdx.
  set (w2 := mkWorld _ _ _ _) in Hdx.
  assert (Hy2 : binders w2 !! y = Some {| mBinder := H |})
    by (subst w2; cbn; by rewrite lookup_delete_ne).
  pose proof (SpAIBinder_dtor_eval _ _ _ Hy2) as Hdy.
  cbn [mBinder] in Hdy. rewrite Hnz in Hdy.
  set (w' := mkWorld _ _ _ _) in Hdy.
  assert (Hgone : forall z, z = a \/ z = b -> binders w' !! z = None).
  { intros z Hz. subst w' w2; cbn.
    destruct (decide (z = y)) as [->|Hzy]; [by rewrite lookup_delete_eq|].
    rewrite lookup_delete_ne by done.
    assert (z = x) as -> by (subst x y; destruct a_first, Hz; congruence).
    by rewrite lookup_delete_eq. }
  exists w1, w2, w'. split_and!; try done.
  - unfold copy_then_destroy_both, bind at 1. rewrite Hcopy.
    subst x y. destruct a_first; unfold bind; by rewrite Hdx.
  - apply Hgone. by left.
  - apply Hgone. by right.
  - exists [incStrong H; decStrong H; decStrong H]. split_and!.
    + subst w' w2 w1; cbn. by rewrite <- !app_assoc.
    + rewrite !count_call_cons. repeat case_decide; simplify_eq; done.
    + rewrite !count_call_cons. repeat case_decide; simplify_eq; done.
    + cbn. rewrite !decide_True by done. lia.
Qed.

(** C2: assigning to [this], which holds a non-null [H], from a reference
    [other] that holds [H] too (the same object or another one) calls
    [AIBinder_incStrong(H)] and only then [AIBinder_decStrong(H)]: the
    balance of the assignment is zero, no point of it lies below the
    starting count, [H] is released once, and [this] still holds [H]. *)
Theorem assign_same_handle_increments_first w this other H :
  H <> nullptr ->
  binders w !! this = Some {| mBinder := H |} ->
  binders w !! other = Some {| mBinder := H |} ->
  exists w' new,
    SpAIBinder_assign this other w = Some (this, w') /\
    calls w' = calls w ++ new /\
    new = [incStrong H; decStrong H] /\
    strong_delta H new = 0%Z /\
    (forall p, p `prefix_of` new -> (0 <= strong_delta H p)%Z) /\
    count_call (decStrong H) new = 1%nat /\
    binders w' !! this = Some {| mBinder := H |} /\
    binders w' = binders w.
Proof.
  intros HH Hs Ho.
  assert (Hnz : (H =? nullptr) = false) by by apply N.eqb_neq.
  pose proof (SpAIBinder_assign_eval _ _ _ _ _ Hs Ho) as Hrun.
  cbn [mBinder] in Hrun. rewrite Hnz in Hrun.
  eexists _, _. split; [exact Hrun|]. cbn [calls binders].
  split_and!; try done.
  - cbn. rewrite !decide_True by done. lia.
  - intros p [k Hk].
    destruct p as [|c1 [|c2 [|c3 p]]]; simplify_eq/=;
      rewrite ?decide_True by done; lia.
  - rewrite !count_call_cons. repeat case_decide; simplify_eq; done.
  - by rewrite lookup_insert_eq.
  - by apply insert_id.
Qed.

(** C3, as the code has it: copy-constructing or copy-assigning from a
    source whose handle is null calls [AIBinder_incStrong] exactly once,
    with [nullptr], whatever the runtime does with it: the call is not
    guarded.  No other handle is incremented.  Only the last part depends
    on the runtime: where its increment does nothing on null, the copy
    construction leaves the runtime as it was. *)
Theorem null_source_increments_null_only w this fresh other s :
  binders w !! other = Some {| mBinder := nullptr |} ->
  binders w !! fresh = None ->
  binders w !! this = Some s ->
  (exists w',
     SpAIBinder_copy fresh other w = Some (tt, w') /\
     calls w' = calls w ++ [incStrong nullptr] /\
     ext w' = rt_incStrong nullptr (ext w) /\
     ((forall e : Ext, rt_incStrong nullptr e = e) -> ext w' = ext w) /\
     binders w' !! fresh = Some {| mBinder := nullptr |}) /\
  (exists w' new,
     SpAIBinder_assign this other w = Some (this, w') /\
     calls w' = calls w ++ new /\
     count_call (incStrong nullptr) new = 1%nat /\
     (forall h, h <> nullptr -> count_call (incStrong h) new = 0%nat) /\
     binders w' !! this = Some {| mBinder := nullptr |}).
Proof.
  intros Ho Hn Hs. split.
  - eexists. split; [by apply SpAIBinder_copy_eval|]. cbn.
    split_and!; [reflexivity|reflexivity| |by rewrite lookup_insert_eq].
    intros Hnoop. apply Hnoop.
  - pose proof (SpAIBinder_assign_eval _ _ _ _ _ Hs Ho) as Hrun.
    cbn [mBinder] in Hrun.
    destruct (mBinder s =? nullptr); eexists _, _;
      (split; [exact Hrun|]); cbn [calls binders];
      (split_and!; [reflexivity| | |by rewrite lookup_insert_eq]);
      try intros h Hh; rewrite !count_call_cons;
      repeat case_decide; simplify_eq; done.
Qed.

End SpAIBinder_properties.

(** ** Properties of [ScopedA] and its subclasses *)

Section ScopedA_properties.
Context {Ext : Type} `{RT : Runtime Ext}.
Implicit Types (w : World Ext) (this result : N) (d : Deleter).

(** C4: over the life of a box (construction on [t], any run of [set]
    calls [ts], destruction) each handle is passed to [Destroy] by the
    call that replaces it, or by the destructor for the last one: after any
    part of the [set] calls the handles stored before the current one have
    been destroyed, in order, and the current one has not.  So a non-null
    handle that is stored only once is destroyed exactly once. *)
Theorem destroy_once_per_stored_handle d w this (t : N) (ts : list N) :
  boxes w !! this = None ->
  NoDup (filter (fun h => h <> nullptr) (t :: ts)) ->
  (forall ts1 ts2, ts = ts1 ++ ts2 ->
     exists w1,
       (ScopedA_ctor this t ;; ScopedA_sets d this ts1) w = Some (tt, w1) /\
       calls w1 = calls w ++ (destroy d <$> removelast (t :: ts1)) /\
       boxes w1 !! this = Some {| mT := default t (last ts1) |}) /\
  exists w' new,
    box_lifecycle d this t ts w = Some (tt, w') /\
    boxes w' !! this = None /\
    calls w' = calls w ++ new /\
    destroyed d new = t :: ts /\
    forall h, h ∈ t :: ts -> h <> nullptr ->
              count_call (destroy d h) new = 1%nat.
Proof.
  intros Hn Hnd.
  set (w0 := mkWorld (ext w) (calls w) (binders w) (<[this := {| mT := t |}]> (boxes w))).
  assert (Hctor : ScopedA_ctor this t w = Some (tt, w0))
    by (unfold ScopedA_ctor, ScopedA_init; by rewrite Hn).
  assert (H0 : boxes w0 !! this = Some {| mT := t |})
    by (subst w0; cbn; by rewrite lookup_insert_eq).
  split.
  - intros ts1 ts2 _.
    destruct (ScopedA_sets_eval d this ts1 w0 t H0) as (w1 & Hrun & Hc & Hb & _).
    exists w1. split_and!.
    + unfold bind. by rewrite Hctor.
    + done.
    + rewrite Hb. by rewrite lookup_insert_eq.
  - destruct (ScopedA_sets_eval d this ts w0 t H0) as (w1 & Hrun & Hc & Hb & _).
    assert (H1 : boxes w1 !! this = Some {| mT := default t (last ts) |})
      by (rewrite Hb; by rewrite lookup_insert_eq).
    pose proof (ScopedA_dtor_eval d _ _ _ H1) as Hd. cbn [mT] in Hd.
    assert (Hall : removelast (t :: ts) ++ [default t (last ts)] = t :: ts).
    { clear. revert t. induction ts as [|x ts IH]; intros t; [done|].
      change (removelast (t :: x :: ts)) with (t :: removelast (x :: ts)).
      rewrite last_cons. cbn [app]. f_equal. rewrite <- (IH x) at 2.
      by destruct (last ts). }
    eexists _, (destroy d <$> (t :: ts)). split_and!.
    + unfold box_lifecycle, bind. by rewrite Hctor, Hrun, Hd.
    + cbn. by rewrite lookup_delete_eq.
    + cbn [calls]. rewrite Hc. subst w0; cbn [calls].
      rewrite <- app_assoc. f_equal.
      rewrite <- Hall at 2. by rewrite fmap_app.
    + apply destroyed_destroy.
    + intros h Hin Hh. rewrite count_call_destroy. by apply stored_once.
Qed.

(** C8: constructing a box on [nullptr] and destroying it calls [Destroy]
    once, with [nullptr] -- no call receives a handle that is not null --
    and under the contract that [Destroy] does nothing on null the
    runtime and the other objects are as before. *)
Theorem default_box_destroys_nothing d w this :
  boxes w !! this = None ->
  (forall e : Ext, rt_destroy d nullptr e = e) ->
  exists w' new,
    (ScopedA_ctor this nullptr ;; ScopedA_dtor d this) w = Some (tt, w') /\
    calls w' = calls w ++ new /\
    new = [destroy d nullptr] /\
    (forall t, t ∈ destroyed d new -> t = nullptr) /\
    (forall t, t <> nullptr -> count_call (destroy d t) new = 0%nat) /\
    ext w' = ext w /\
    boxes w' = boxes w /\
    binders w' = binders w.
Proof.
  intros Hn Hnoop.
  set (w0 := mkWorld (ext w) (calls w) (binders w)
               (<[this := {| mT := nullptr |}]> (boxes w))).
  assert (H0 : boxes w0 !! this = Some {| mT := nullptr |})
    by (subst w0; cbn; by rewrite lookup_insert_eq).
  eexists _, _. split_and!.
  - unfold bind, ScopedA_ctor, ScopedA_init. rewrite Hn.
    by rewrite (ScopedA_dtor_eval d _ _ _ H0).
  - reflexivity.
  - reflexivity.
  - unfold destroyed; cbn. rewrite decide_True by done.
    intros t Ht. by apply list_elem_of_singleton in Ht.
  - intros t Ht. rewrite count_call_cons. case_decide; simplify_eq; done.
  - cbn. apply Hnoop.
  - cbn. rewrite delete_insert_eq. by apply delete_id.
  - done.
Qed.

(** C6: [isOk()] is true exactly when the held handle is not null and
    [AStatus_isOk] is true of it; on a null handle it is false and
    [AStatus_isOk] is not called. *)
Theorem isOk_iff_nonnull_and_ok w this s :
  boxes w !! this = Some s ->
  exists r w',
    ScopedAStatus_isOk this w = Some (r, w') /\
    (r = true <-> mT s <> nullptr /\ rt_isOk (mT s) (ext w) = true) /\
    (mT s = nullptr -> r = false /\ w' = w) /\
    (mT s <> nullptr -> calls w' = calls w ++ [isOk (mT s)]) /\
    boxes w' = boxes w.
Proof.
  intros Hs. rewrite (ScopedAStatus_isOk_eval _ _ _ Hs).
  destruct (N.eqb_spec (mT s) nullptr) as [Hz|Hz]; eexists _, _;
    (split; [reflexivity|]); cbn [calls boxes]; split_and!;
    try done; try tauto.
  split; [done|]. by intros [? _].
Qed.

(** C7: [promote()] calls [AIBinder_Weak_promote] once, on the held weak
    token, and the [SpAIBinder] it returns holds exactly the handle that
    call returned -- null or not as the runtime answered; it makes no
    [AIBinder_incStrong] call. *)
Theorem promote_wraps_runtime_result w this result s :
  boxes w !! this = Some s ->
  binders w !! result = None ->
  exists w' new,
    ScopedAIBinder_Weak_promote this result w = Some (tt, w') /\
    binders w' !! result = Some {| mBinder := (rt_promote (mT s) (ext w)).1 |} /\
    (binders w' !! result = Some {| mBinder := nullptr |} <->
       (rt_promote (mT s) (ext w)).1 = nullptr) /\
    ext w' = (rt_promote (mT s) (ext w)).2 /\
    calls w' = calls w ++ new /\
    new = [promote (mT s)] /\
    (forall h, count_call (incStrong h) new = 0%nat).
Proof.
  intros Hs Hn.
  eexists _, _. split; [by apply ScopedAIBinder_Weak_promote_eval|].
  cbn. rewrite lookup_insert_eq. split_and!; try done.
  split; [by intros [= ->]|by intros ->].
Qed.

(** C10: [promote()] does not write the box: after any number of calls
    the box holds the same weak token, none of the calls was a [Destroy],
    and destroying the box then releases the token exactly once. *)
Theorem promote_keeps_weak_token w this s (results : list N) :
  boxes w !! this = Some s ->
  NoDup results ->
  (forall r, r ∈ results -> binders w !! r = None) ->
  exists w1 w' new,
    ScopedAIBinder_Weak_promotes this results w = Some (tt, w1) /\
    boxes w1 = boxes w /\
    calls w1 = calls w ++ replicate (length results) (promote (mT s)) /\
    ScopedAIBinder_Weak_dtor this w1 = Some (tt, w') /\
    promote_then_destroy this results w = Some (tt, w') /\
    boxes w' !! this = None /\
    calls w' = calls w ++ new /\
    destroyed AIBinder_Weak_delete new = [mT s] /\
    count_call (destroy AIBinder_Weak_delete (mT s)) new = 1%nat.
Proof.
  intros Hs Hnd Hfresh.
  destruct (ScopedAIBinder_Weak_promotes_eval this s results w Hs Hnd Hfresh)
    as (w1 & Hrun & Hc & Hb).
  assert (H1 : boxes w1 !! this = Some s) by by rewrite Hb.
  pose proof (ScopedA_dtor_eval AIBinder_Weak_delete _ _ _ H1) as Hd.
  eexists w1, _, _. split_and!.
  - exact Hrun.
  - exact Hb.
  - exact Hc.
  - exact Hd.
  - unfold promote_then_destroy, bind. rewrite Hrun. exact Hd.
  - cbn. by rewrite lookup_delete_eq.
  - cbn [calls]. rewrite Hc, <- app_assoc. reflexivity.
  - rewrite destroyed_app, destroyed_replicate_promote.
    unfold destroyed; cbn. by rewrite decide_True.
  - rewrite count_call_app, count_call_replicate_ne by done.
    rewrite count_call_cons. by rewrite decide_True.
Qed.

End ScopedA_properties.

(** ** The defaulted move constructor *)

(** For any box: after move construction the source still holds its handle,
    so destroying the source and the destination passes the handle to
    [Destroy] twice. *)
Lemma move_then_destroy_both_eval {Ext : Type} `{RT : Runtime Ext}
    (d : Deleter) (w : World Ext) (src dst : N) (h : N) :
  boxes w !! src = Some {| mT := h |} ->
  boxes w !! dst = None ->
  exists w1 w',
    ScopedA_move dst src w = Some (tt, w1) /\
    boxes w1 !! src = Some {| mT := h |} /\
    boxes w1 !! dst = Some {| mT := h |} /\
    calls w1 = calls w /\
    move_then_destroy_both d src dst w = Some (tt, w') /\
    calls w' = calls w ++ [destroy d h; destroy d h].
Proof.
  intros Hs Hn. assert (Hne : src <> dst) by congruence.
  pose proof (ScopedA_move_eval _ _ _ _ Hn Hs) as Hm.
  set (w1 := mkWorld _ _ _ _) in Hm.
  assert (Hs1 : boxes w1 !! src = Some {| mT := h |})
    by (subst w1; cbn; by rewrite lookup_insert_ne).
  assert (Hd1 : boxes w1 !! dst = Some {| mT := h |})
    by (subst w1; cbn; by rewrite lookup_insert_eq).
  pose proof (ScopedA_dtor_eval d _ _ _ Hs1) as Hx. cbn [mT] in Hx.
  set (w2 := mkWorld _ _ _ _) in Hx.
  assert (Hd2 : boxes w2 !! dst = Some {| mT := h |})
    by (subst w2; cbn; by rewrite lookup_delete_ne).
  pose proof (ScopedA_dtor_eval d _ _ _ Hd2) as Hy. cbn [mT] in Hy.
  eexists w1, _. split_and!; try done.
  - unfold move_then_destroy_both, bind. rewrite Hm, Hx. exact Hy.
  - subst w2 w1; cbn. by rewrite <- app_assoc.
Qed.

(** C1, on the code: a [ScopedAParcel] at address [1] holds the handle [3]
    and is moved into a new box at [2].  The source still holds [3]; its
    destructor calls [AParcel_delete(3)], and the destructor of the
    destination calls it again. *)
Theorem defaulted_move_keeps_source_handle :
  exists w1 w2 w3,
    ScopedAParcel_move 2 1 (world0 [] [(1, 3)]) = Some (tt, w1) /\
    boxes w1 !! 1 = Some {| mT := 3 |} /\
    boxes w1 !! 2 = Some {| mT := 3 |} /\
    ScopedAParcel_dtor 1 w1 = Some (tt, w2) /\
    calls w2 = [destroy AParcel_delete 3] /\
    ScopedAParcel_dtor 2 w2 = Some (tt, w3) /\
    calls w3 = [destroy AParcel_delete 3; destroy AParcel_delete 3] /\
    released (ext w3) = [(AParcel_delete, 3); (AParcel_delete, 3)].
Proof. eexists _, _, _. split_and!; vm_compute; reflexivity. Qed.

(** ** Copying from a null source *)

(** C3 as stated fails: copy-constructing at [2] from the null [SpAIBinder]
    at [1] calls [AIBinder_incStrong(nullptr)]. *)
Lemma null_source_copy_increments_null :
  exists w',
    SpAIBinder_copy 2 1 (world0 [(1, nullptr)] []) = Some (tt, w') /\
    calls w' = [incStrong nullptr] /\
    ~ no_increment_of_null (calls w').
Proof. eexists. split_and!; [vm_compute; reflexivity|reflexivity|]. by vm_compute. Qed.

(** ** The properties at concrete worlds *)

Lemma copy_construction_never_decrements_witness :
  binders (world0 [(1, 7)] []) !! 1 = Some {| mBinder := 7 |} /\
  binders (world0 [(1, 7)] []) !! 2 = None /\
  exists w',
    SpAIBinder_copy 2 1 (world0 [(1, 7)] []) = Some (tt, w') /\
    calls w' = [incStrong 7] /\
    binders w' !! 2 = Some {| mBinder := 7 |}.
Proof.
  split; [reflexivity|]. split; [reflexivity|].
  destruct (copy_construction_never_decrements
              (world0 [(1, 7)] []) 2 1 {| mBinder := 7 |})
    as (w0 & w' & _ & _ & _ & Hrun & Hcalls & _ & Hthis & _);
    [reflexivity|reflexivity|].
  exists w'. split; [exact Hrun|]. split; [exact Hcalls|exact Hthis].
Defined.

Lemma copy_then_destroy_both_balanced_witness :
  7 <> nullptr /\
  binders (world0 [(1, 7)] []) !! 1 = Some {| mBinder := 7 |} /\
  binders (world0 [(1, 7)] []) !! 2 = None /\
  exists w',
    copy_then_destroy_both 1 2 false (world0 [(1, 7)] []) = Some (tt, w') /\
    binders w' !! 1 = None /\
    binders w' !! 2 = None.
Proof.
  split; [discriminate|]. split; [reflexivity|]. split; [reflexivity|].
  destruct (copy_then_destroy_both_balanced (world0 [(1, 7)] []) 1 2 7 false)
    as (w1 & w2 & w' & _ & _ & _ & _ & _ & _ & _ & _ & Hrun & Ha & Hb & _);
    [discriminate|reflexivity|reflexivity|].
  exists w'. split; [exact Hrun|]. split; [exact Ha|exact Hb].
Defined.

(** Self-assignment: [this] and [other] are the object at [1]. *)
Lemma assign_same_handle_increments_first_witness :
  7 <> nullptr /\
  binders (world0 [(1, 7)] []) !! 1 = Some {| mBinder := 7 |} /\
  exists w',
    SpAIBinder_assign 1 1 (world0 [(1, 7)] []) = Some (1, w') /\
    calls w' = [incStrong 7; decStrong 7] /\
    binders w' !! 1 = Some {| mBinder := 7 |}.
Proof.
  split; [discriminate|]. split; [reflexivity|].
  destruct (assign_same_handle_increments_first (world0 [(1, 7)] []) 1 1 7)
    as (w' & new & Hrun & Hcalls & -> & _ & _ & _ & Hthis & _);
    [discriminate|reflexivity|reflexivity|].
  exists w'. split; [exact Hrun|]. split; [exact Hcalls|exact Hthis].
Defined.

Lemma null_source_increments_null_only_witness :
  binders (world0 [(1, nullptr); (2, 7)] []) !! 1 = Some {| mBinder := nullptr |} /\
  binders (world0 [(1, nullptr); (2, 7)] []) !! 3 = None /\
  binders (world0 [(1, nullptr); (2, 7)] []) !! 2 = Some {| mBinder := 7 |} /\
  (exists w',
     SpAIBinder_copy 3 1 (world0 [(1, nullptr); (2, 7)] []) = Some (tt, w') /\
     calls w' = [incStrong nullptr] /\
     ext w' = kernel0) /\
  (exists w',
     SpAIBinder_assign 2 1 (world0 [(1, nullptr); (2, 7)] []) = Some (2, w') /\
     count_call (incStrong nullptr) (calls w') = 1%nat /\
     binders w' !! 2 = Some {| mBinder := nullptr |}).
Proof.
  split; [reflexivity|]. split; [reflexivity|]. split; [reflexivity|].
  destruct (null_source_increments_null_only
              (world0 [(1, nullptr); (2, 7)] []) 2 3 1 {| mBinder := 7 |})
    as [(w1 & Hrun1 & Hcalls1 & _ & Hext & _)
        (w2 & new & Hrun2 & Hcalls2 & Hcount & _ & Hthis)];
    [reflexivity|reflexivity|reflexivity|].
  split.
  - exists w1. split; [exact Hrun1|]. split; [exact Hcalls1|].
    apply Hext. intros e. reflexivity.
  - exists w2. split; [exact Hrun2|]. rewrite Hcalls2.
    split; [exact Hcount|exact Hthis].
Defined.

Lemma destroy_once_per_stored_handle_witness :
  boxes (world0 [] []) !! 1 = None /\
  NoDup (filter (fun h => h <> nullptr) [3; 4; nullptr; 5]) /\
  exists w',
    box_lifecycle AStatus_delete 1 3 [4; nullptr; 5] (world0 [] []) = Some (tt, w') /\
    destroyed AStatus_delete (calls w') = [3; 4; nullptr; 5].
Proof.
  split; [reflexivity|].
  split; [apply (bool_decide_unpack _); vm_compute; reflexivity|].
  destruct (destroy_once_per_stored_handle
              AStatus_delete (world0 [] []) 1 3 [4; nullptr; 5])
    as [_ (w' & new & Hrun & _ & Hcalls & Hd & _)];
    [reflexivity|apply (bool_decide_unpack _); vm_compute; reflexivity|].
  exists w'. split; [exact Hrun|]. rewrite Hcalls. exact Hd.
Defined.

Lemma default_box_destroys_nothing_witness :
  boxes (world0 [] []) !! 1 = None /\
  (forall e : Kernel, rt_destroy AParcel_delete nullptr e = e) /\
  exists w',
    (ScopedA_ctor 1 nullptr ;; ScopedA_dtor AParcel_delete 1) (world0 [] [])
      = Some (tt, w') /\
    calls w' = [destroy AParcel_delete nullptr] /\
    ext w' = kernel0.
Proof.
  split; [reflexivity|]. split; [intros e; reflexivity|].
  destruct (default_box_destroys_nothing AParcel_delete (world0 [] []) 1)
    as (w' & new & Hrun & Hcalls & -> & _ & _ & Hext & _);
    [reflexivity|intros e; reflexivity|].
  exists w'. split; [exact Hrun|]. split; [exact Hcalls|exact Hext].
Defined.

(** A default-constructed status: [isOk()] is false and nothing is logged. *)
Lemma isOk_iff_nonnull_and_ok_witness :
  boxes (world0 [] [(1, nullptr)]) !! 1 = Some {| mT := nullptr |} /\
  ScopedAStatus_isOk 1 (world0 [] [(1, nullptr)])
    = Some (false, world0 [] [(1, nullptr)]).
Proof.
  split; [reflexivity|].
  destruct (isOk_iff_nonnull_and_ok (world0 [] [(1, nullptr)]) 1 {| mT := nullptr |})
    as (r & w' & Hrun & _ & Hnull & _); [reflexivity|].
  destruct (Hnull eq_refl) as [-> ->]. exact Hrun.
Defined.

(** The weak token [9] refers to the live binder [7]. *)
Lemma promote_wraps_runtime_result_witness :
  boxes (world0 [] [(1, 9)]) !! 1 = Some {| mT := 9 |} /\
  binders (world0 [] [(1, 9)]) !! 2 = None /\
  exists w',
    ScopedAIBinder_Weak_promote 1 2 (world0 [] [(1, 9)]) = Some (tt, w') /\
    binders w' !! 2 = Some {| mBinder := 7 |} /\
    calls w' = [promote 9].
Proof.
  split; [reflexivity|]. split; [reflexivity|].
  destruct (promote_wraps_runtime_result (world0 [] [(1, 9)]) 1 2 {| mT := 9 |})
    as (w' & new & Hrun & Hres & _ & _ & Hcalls & -> & _);
    [reflexivity|reflexivity|].
  exists w'. split; [exact Hrun|]. split; [exact Hres|exact Hcalls].
Defined.

Lemma promote_keeps_weak_token_witness :
  boxes (world0 [] [(1, 9)]) !! 1 = Some {| mT := 9 |} /\
  NoDup [2; 3; 4] /\
  (forall r, r ∈ [2; 3; 4] -> binders (world0 [] [(1, 9)]) !! r = None) /\
  exists w',
    promote_then_destroy 1 [2; 3; 4] (world0 [] [(1, 9)]) = Some (tt, w') /\
    destroyed AIBinder_Weak_delete (calls w') = [9].
Proof.
  assert (Hfresh : forall r, r ∈ [2; 3; 4] -> binders (world0 [] [(1, 9)]) !! r = None).
  { intros r Hr. repeat (apply elem_of_cons in Hr as [->|Hr]; [reflexivity|]).
    by apply elem_of_nil in Hr. }
  split; [reflexivity|].
  split; [apply (bool_decide_unpack _); vm_compute; reflexivity|].
  split; [exact Hfresh|].
  destruct (promote_keeps_weak_token (world0 [] [(1, 9)]) 1 {| mT := 9 |} [2; 3; 4])
    as (w1 & w' & new & _ & _ & _ & _ & Hrun & _ & Hcalls & Hd & _);
    [reflexivity|apply (bool_decide_unpack _); vm_compute; reflexivity|exact Hfresh|].
  exists w'. split; [exact Hrun|]. rewrite Hcalls. exact Hd.
Defined.

(** ** Runs against the reference-counting runtime *)

(** The weak token [8] refers to a binder that is gone: the result is null
    and no strong count moves. *)
Example promote_dead_referent :
  exists w',
    ScopedAIBinder_Weak_promote 1 2 (world0 [] [(1, 8)]) = Some (tt, w') /\
    binders w' !! 2 = Some {| mBinder := nullptr |} /\
    strong (ext w') = strong kernel0.
Proof. eexists. split_and!; vm_compute; reflexivity. Qed.

(** The weak token [9] refers to the live binder [7]: the result holds [7]
    and owns the count the runtime added. *)
Example promote_live_referent :
  exists w',
    ScopedAIBinder_Weak_promote 1 2 (world0 [] [(1, 9)]) = Some (tt, w') /\
    binders w' !! 2 = Some {| mBinder := 7 |} /\
    strong_count (ext w') 7 = 2%nat.
Proof. eexists. split_and!; vm_compute; reflexivity. Qed.

(** Self-assignment leaves the strong count of [7] at [1]. *)
Example self_assignment_count :
  exists w',
    SpAIBinder_assign 1 1 (world0 [(1, 7)] []) = Some (1, w') /\
    strong_count (ext w') 7 = 1%nat.
Proof. eexists. split; vm_compute; reflexivity. Qed.

(** Copying and destroying both owners gives up the one count there was. *)
Example copy_then_destroy_both_count :
  exists w',
    copy_then_destroy_both 1 2 true (world0 [(1, 7)] []) = Some (tt, w') /\
    strong_count (ext w') 7 = 0%nat.
Proof. eexists. split; vm_compute; reflexivity. Qed.

(** A status box on the successful status [5], and on an unknown one. *)
Example isOk_on_statuses :
  (fst <$> ScopedAStatus_isOk 1 (world0 [] [(1, 5)])) = Some true /\
  (fst <$> ScopedAStatus_isOk 1 (world0 [] [(1, 4)])) = Some false.
Proof. split; vm_compute; reflexivity. Qed.

(** Using an object after its destructor is undefined. *)
Example use_after_destruction :
  (SpAIBinder_dtor 1 ;; SpAIBinder_get 1) (world0 [(1, 7)] []) = None.
Proof. vm_compute. reflexivity. Qed.

(** ** More facts about logs and owners *)

Lemma strong_delta_app h l1 l2 :
  strong_delta h (l1 ++ l2) = (strong_delta h l1 + strong_delta h l2)%Z.
Proof.
  induction l1 as [|c l1 IH]; [done|].
  destruct c; cbn [app strong_delta]; rewrite IH; lia.
Qed.

Lemma count_call_fmap_ne (f : N -> Call) c (l : list N) :
  (forall x, f x <> c) -> count_call c (f <$> l) = 0%nat.
Proof.
  intros Hne. induction l as [|x l IH]; [done|].
  rewrite fmap_cons, count_call_cons, IH. by rewrite decide_False.
Qed.

Lemma count_call_decStrong_nonnull (l : list N) :
  count_call (decStrong nullptr)
    (decStrong <$> filter (fun h => h <> nullptr) l) = 0%nat.
Proof.
  induction l as [|x l IH]; [done|].
  rewrite filter_cons. case_decide; [|done].
  rewrite fmap_cons, count_call_cons, decide_False; [done|congruence].
Qed.

Lemma owners_empty h : owners h ∅ = 0%nat.
Proof. unfold owners. by rewrite map_filter_empty, map_size_empty. Qed.

(** Writing [s] at [k] makes [s] an owner beside those at other addresses. *)
Lemma owners_insert h (m : gmap N SpAIBinder) k s :
  owners h (<[k := s]> m) =
    ((if decide (mBinder s = h) then 1 else 0) + owners h (delete k m))%nat.
Proof.
  unfold owners. rewrite <- insert_delete_eq.
  rewrite map_filter_insert. cbn. case_decide.
  - rewrite map_size_insert_None; [done|].
    apply map_lookup_filter_None. left. apply lookup_delete_eq.
  - by rewrite delete_delete_eq.
Qed.

Lemma owners_live h (m : gmap N SpAIBinder) k s :
  m !! k = Some s ->
  owners h m = ((if decide (mBinder s = h) then 1 else 0) + owners h (delete k m))%nat.
Proof. intros Hk. rewrite <- (insert_id m k s Hk) at 1. apply owners_insert. Qed.

Lemma owners_fresh h (m : gmap N SpAIBinder) k :
  m !! k = None -> owners h (delete k m) = owners h m.
Proof. intros Hk. by rewrite delete_id. Qed.

Section More_steps.
Context {Ext : Type} `{RT : Runtime Ext}.
Implicit Types (w : World Ext) (this other : N).

Lemma bind_inv {A B} (m : M Ext A) (k : A -> M Ext B) w b w' :
  bind m k w = Some (b, w') ->
  exists a w1, m w = Some (a, w1) /\ k a w1 = Some (b, w').
Proof.
  unfold bind. destruct (m w) as [[a w1]|]; [|done]. intros Hk. by exists a, w1.
Qed.

Lemma SpAIBinder_read_dead w this :
  binders w !! this = None -> SpAIBinder_read this w = None.
Proof. unfold SpAIBinder_read. by intros ->. Qed.

Lemma SpAIBinder_set_dead w this b :
  binders w !! this = None -> SpAIBinder_set this b w = None.
Proof.
  intros Hd. unfold SpAIBinder_set, bind. by rewrite SpAIBinder_read_dead.
Qed.

(** An assignment that is defined has live operands. *)
Lemma SpAIBinder_assign_live w this other r w' :
  SpAIBinder_assign this other w = Some (r, w') ->
  is_Some (binders w !! this) /\ is_Some (binders w !! other).
Proof.
  intros Hrun. unfold SpAIBinder_assign in Hrun.
  destruct (binders w !! other) as [o|] eqn:Ho.
  - split; [|done]. destruct (binders w !! this) as [s|] eqn:Hs; [done|].
    rewrite (bind_Some _ _ _ _ _ (SpAIBinder_read_live _ _ _ Ho)) in Hrun.
    unfold bind at 1, AIBinder_incStrong, extern in Hrun.
    set (w1 := mkWorld _ _ _ _) in Hrun.
    assert (H1 : binders w1 !! other = Some o) by done.
    rewrite (bind_Some _ _ _ _ _ (SpAIBinder_read_live _ _ _ H1)) in Hrun.
    unfold bind in Hrun. by rewrite SpAIBinder_set_dead in Hrun.
  - unfold bind in Hrun. by rewrite SpAIBinder_read_dead in Hrun.
Qed.

Lemma SpAIBinder_dtor_live w this w' :
  SpAIBinder_dtor this w = Some (tt, w') -> is_Some (binders w !! this).
Proof.
  intros Hrun. destruct (binders w !! this) eqn:Hs; [done|].
  unfold SpAIBinder_dtor, bind in Hrun. by rewrite SpAIBinder_set_dead in Hrun.
Qed.

(** A run of [set] calls releases the handle held before it and every
    argument but the last, skipping the null ones. *)
Lemma SpAIBinder_sets_eval this bs : forall w t,
  binders w !! this = Some {| mBinder := t |} ->
  exists w',
    SpAIBinder_sets this bs w = Some (tt, w') /\
    calls w' = calls w ++
      (decStrong <$> filter (fun h => h <> nullptr) (removelast (t :: bs))) /\
    binders w' = <[this := {| mBinder := default t (last bs) |}]> (binders w) /\
    boxes w' = boxes w.
Proof.
  induction bs as [|b bs IH]; intros w t Hs.
  - exists w. cbn. rewrite app_nil_r. by rewrite insert_id.
  - cbn [SpAIBinder_sets]. unfold bind at 1.
    rewrite (SpAIBinder_set_eval _ _ _ _ Hs). cbn [mBinder].
    change (removelast (t :: b :: bs)) with (t :: removelast (b :: bs)).
    rewrite filter_cons.
    destruct (N.eqb_spec t nullptr) as [Ht|Ht].
    + rewrite decide_False by (by intros ?).
      set (w1 := mkWorld _ _ _ _).
      destruct (IH w1 b) as (w' & Hrun & Hc & Hb & Hx).
      { subst w1; cbn. by rewrite lookup_insert_eq. }
      exists w'. split; [done|]. rewrite Hc, Hb, Hx. subst w1; cbn.
      rewrite insert_insert_eq, last_cons. by destruct (last bs).
    + rewrite decide_True by done.
      set (w1 := mkWorld _ _ _ _).
      destruct (IH w1 b) as (w' & Hrun & Hc & Hb & Hx).
      { subst w1; cbn. by rewrite lookup_insert_eq. }
      exists w'. split; [done|]. rewrite Hc, Hb, Hx. subst w1; cbn.
      rewrite insert_insert_eq, last_cons, <- app_assoc. by destruct (last bs).
Qed.

End More_steps.

(** ** Ownership over the life of [SpAIBinder] objects *)

Section SpAIBinder_ownership.
Context {Ext : Type} `{RT : Runtime Ext}.
Implicit Types (w : World Ext) (this other a b : N).

(** An [SpAIBinder] constructed on [t], [set] to each of [bs] and destroyed
    calls [AIBinder_decStrong] once for every handle it adopted that is not
    null, in the order of adoption, and makes no other call: null is never
    passed to [AIBinder_decStrong], nothing is incremented, and no other
    object changes. *)
Theorem binder_lifecycle_releases_adopted w this (t : N) (bs : list N) :
  binders w !! this = None ->
  exists w' new,
    binder_lifecycle this t bs w = Some (tt, w') /\
    calls w' = calls w ++ new /\
    new = decStrong <$> filter (fun h => h <> nullptr) (t :: bs) /\
    count_call (decStrong nullptr) new = 0%nat /\
    (forall h, count_call (incStrong h) new = 0%nat) /\
    binders w' = binders w /\
    boxes w' = boxes w.
Proof.
  intros Hn.
  set (w0 := mkWorld (ext w) (calls w)
               (<[this := {| mBinder := t |}]> (binders w)) (boxes w)).
  assert (Hctor : SpAIBinder_ctor this t w = Some (tt, w0))
    by (unfold SpAIBinder_ctor, SpAIBinder_init; by rewrite Hn).
  assert (H0 : binders w0 !! this = Some {| mBinder := t |})
    by (subst w0; cbn; by rewrite lookup_insert_eq).
  destruct (SpAIBinder_sets_eval this bs w0 t H0) as (w1 & Hrun & Hc & Hb & Hx).
  assert (H1 : binders w1 !! this = Some {| mBinder := default t (last bs) |})
    by (rewrite Hb; by rewrite lookup_insert_eq).
  pose proof (SpAIBinder_dtor_eval _ _ _ H1) as Hd. cbn [mBinder] in Hd.
  assert (Hall : removelast (t :: bs) ++ [default t (last bs)] = t :: bs).
  { clear. revert t. induction bs as [|x bs IH]; intros t; [done|].
    change (removelast (t :: x :: bs)) with (t :: removelast (x :: bs)).
    rewrite last_cons. cbn [app]. f_equal. rewrite <- (IH x) at 2.
    by destruct (last bs). }
  assert (Hlog : exists w',
    SpAIBinder_dtor this w1 = Some (tt, w') /\
    calls w' = calls w ++
      (decStrong <$> filter (fun h => h <> nullptr)
                       (removelast (t :: bs) ++ [default t (last bs)])) /\
    binders w' = binders w /\ boxes w' = boxes w).
  { rewrite filter_app, fmap_app, filter_cons, filter_nil.
    destruct (N.eqb_spec (default t (last bs)) nullptr) as [Hz|Hz];
      eexists; (split; [exact Hd|]); cbn [calls binders boxes];
      rewrite Hc, Hb, Hx; subst w0; cbn [calls binders boxes];
      rewrite delete_insert_eq, delete_insert_eq, delete_id by done.
    - rewrite decide_False by (by intros ?). by rewrite app_nil_r.
    - rewrite decide_True by done. by rewrite <- app_assoc. }
  destruct Hlog as (w' & Hd' & Hc' & Hb' & Hx'). rewrite Hall in Hc'.
  exists w', (decStrong <$> filter (fun h => h <> nullptr) (t :: bs)).
  split_and!; try done.
  - unfold binder_lifecycle, bind. by rewrite Hctor, Hrun.
  - apply count_call_decStrong_nonnull.
  - intros h. by apply count_call_fmap_ne.
Qed.

(** An [SpAIBinder] built by the [std::nullptr_t] constructor and destroyed
    leaves the world exactly as it found it: it makes no call at all. *)
Theorem null_binder_lifecycle_is_silent w this :
  binders w !! this = None ->
  null_binder_lifecycle this w = Some (tt, w).
Proof.
  intros Hn. unfold null_binder_lifecycle, SpAIBinder_ctor_null, SpAIBinder_ctor.
  unfold bind at 1, SpAIBinder_init. rewrite Hn.
  erewrite SpAIBinder_dtor_eval by (cbn; apply lookup_insert_eq).
  cbn. rewrite delete_insert_eq, delete_id by done. by rewrite World_eta.
Qed.

(** One copy construction, copy assignment or destruction that is defined
    only makes [AIBinder_incStrong] and [AIBinder_decStrong] calls, leaves
    the boxes alone, and for every handle that is not null the balance of
    its calls is the change in the number of objects holding it. *)
Lemma run_op_balance w (o : SpOp) w' :
  run_op o w = Some (tt, w') ->
  exists new,
    calls w' = calls w ++ new /\
    forallb is_count_call new = true /\
    boxes w' = boxes w /\
    forall h, h <> nullptr ->
      (strong_delta h new
       = Z.of_nat (owners h (binders w')) - Z.of_nat (owners h (binders w)))%Z.
Proof.
  intros Hrun. destruct o as [this other|this other|this]; cbn [run_op] in Hrun.
  - (* copy construction *)
    unfold SpAIBinder_copy, bind at 1, SpAIBinder_init in Hrun.
    destruct (binders w !! this) eqn:Hn; [done|].
    apply bind_inv in Hrun as (r & w1 & Hassign & [= <-]).
    pose proof (SpAIBinder_assign_live _ _ _ _ _ Hassign) as [_ [o Ho]].
    erewrite SpAIBinder_assign_eval in Hassign;
      [|cbn; apply lookup_insert_eq|exact Ho].
    cbn in Hassign. injection Hassign as _ <-.
    eexists. split_and!; [reflexivity|reflexivity|reflexivity|].
    intros h Hh. cbn [binders].
    rewrite insert_insert_eq, owners_insert, owners_fresh by done.
    cbn. case_decide; lia.
  - (* copy assignment *)
    apply bind_inv in Hrun as (r & w1 & Hassign & [= <-]).
    pose proof (SpAIBinder_assign_live _ _ _ _ _ Hassign) as [[s Hs] [o Ho]].
    rewrite (SpAIBinder_assign_eval _ _ _ _ _ Hs Ho) in Hassign.
    injection Hassign as _ <-.
    destruct (N.eqb_spec (mBinder s) nullptr) as [Hz|Hz];
      (eexists; split_and!; [reflexivity|reflexivity|reflexivity|]);
      intros h Hh; cbn [binders];
      rewrite owners_insert, (owners_live h _ _ _ Hs); cbn;
      repeat case_decide; simplify_eq; lia.
  - (* destruction *)
    pose proof (SpAIBinder_dtor_live _ _ _ Hrun) as [s Hs].
    rewrite (SpAIBinder_dtor_eval _ _ _ Hs) in Hrun. injection Hrun as <-.
    destruct (N.eqb_spec (mBinder s) nullptr) as [Hz|Hz];
      (eexists; split_and!; [| |reflexivity|]);
      [by rewrite app_nil_r|reflexivity| |reflexivity|reflexivity|];
      intros h Hh; cbn [binders];
      rewrite (owners_live h _ _ _ Hs); cbn;
      repeat case_decide; simplify_eq; lia.
Qed.

(** Any program of copy constructions, copy assignments and destructions
    that is defined keeps that balance: for every handle that is not null,
    the increments less the decrements requested are the owners gained.  So
    when the program ends with no [SpAIBinder] alive, every count the
    objects owned at its start has been given back exactly once. *)
Theorem owners_follow_counts w (os : list SpOp) w' :
  run_ops os w = Some (tt, w') ->
  exists new,
    calls w' = calls w ++ new /\
    forallb is_count_call new = true /\
    boxes w' = boxes w /\
    (forall h, h <> nullptr ->
       (Z.of_nat (owners h (binders w)) + strong_delta h new
        = Z.of_nat (owners h (binders w')))%Z) /\
    (binders w' = ∅ ->
     forall h, h <> nullptr ->
       (strong_delta h new = - Z.of_nat (owners h (binders w)))%Z).
Proof.
  intros Hrun.
  assert (Hbal : exists new,
    calls w' = calls w ++ new /\
    forallb is_count_call new = true /\
    boxes w' = boxes w /\
    forall h, h <> nullptr ->
      (Z.of_nat (owners h (binders w)) + strong_delta h new
       = Z.of_nat (owners h (binders w')))%Z).
  { revert w Hrun. induction os as [|o os IH]; intros w Hrun.
    - injection Hrun as <-. exists []. rewrite app_nil_r.
      split_and!; try done. intros h _. cbn. lia.
    - cbn [run_ops] in Hrun. apply bind_inv in Hrun as ([] & w1 & Ho & Hos).
      apply run_op_balance in Ho as (new1 & Hc1 & Hk1 & Hx1 & Hb1).
      apply IH in Hos as (new2 & Hc2 & Hk2 & Hx2 & Hb2).
      exists (new1 ++ new2). split_and!.
      + by rewrite Hc2, Hc1, app_assoc.
      + by rewrite forallb_app, Hk1, Hk2.
      + by rewrite Hx2.
      + intros h Hh. rewrite strong_delta_app.
        specialize (Hb1 h Hh). specialize (Hb2 h Hh). lia. }
  destruct Hbal as (new & Hc & Hk & Hx & Hb).
  exists new. split_and!; try done.
  intros Hempty h Hh. specialize (Hb h Hh).
  rewrite Hempty, owners_empty in Hb. lia.
Qed.

(** Incrementing the handle read with [get()] and constructing a new owner
    on it is copy construction: from a source other than the new object the
    two give the same result, defined or not. *)
Theorem adopt_incremented_is_copy w this other :
  this <> other ->
  adopt_incremented this other w = SpAIBinder_copy this other w.
Proof.
  intros Hne. unfold adopt_incremented, SpAIBinder_get, SpAIBinder_ctor.
  destruct (binders w !! other) as [o|] eqn:Ho.
  - rewrite (bind_Some _ _ _ _ _ (SpAIBinder_read_live _ _ _ Ho)).
    unfold bind at 1, AIBinder_incStrong, extern.
    set (w1 := mkWorld _ _ _ _).
    assert (H1 : binders w1 !! other = Some o) by done.
    rewrite (bind_Some _ _ _ _ _ (SpAIBinder_read_live _ _ _ H1)).
    destruct (binders w !! this) as [s|] eqn:Hs.
    + unfold SpAIBinder_copy, bind, SpAIBinder_init; cbn. by rewrite Hs.
    + rewrite (SpAIBinder_copy_eval _ _ _ _ Hs Ho).
      unfold SpAIBinder_init; cbn. rewrite Hs. by destruct o.
  - unfold bind at 1. rewrite (SpAIBinder_read_dead _ _ Ho).
    unfold SpAIBinder_copy, bind at 1, SpAIBinder_init.
    destruct (binders w !! this) eqn:Hs; [done|].
    unfold bind at 1, SpAIBinder_assign, bind at 1.
    rewrite SpAIBinder_read_dead; [done|]. cbn. by rewrite lookup_insert_ne.
Qed.

(** Constructing a second owner on the handle read with [get()] without
    incrementing it, and destroying both owners, releases a non-null handle
    twice though nothing acquired a second count. *)
Theorem adopt_raw_releases_twice w a b (H : N) :
  H <> nullptr ->
  binders w !! a = Some {| mBinder := H |} ->
  binders w !! b = None ->
  exists w' new,
    adopt_raw_then_destroy_both a b w = Some (tt, w') /\
    calls w' = calls w ++ new /\
    new = [decStrong H; decStrong H] /\
    (strong_delta H new = -2)%Z /\
    owners H (binders w) = S (owners H (binders w')).
Proof.
  intros HH Ha Hb. assert (Hne : a <> b) by congruence.
  assert (Hnz : (H =? nullptr) = false) by by apply N.eqb_neq.
  unfold adopt_raw_then_destroy_both, SpAIBinder_get, SpAIBinder_ctor.
  rewrite (bind_Some _ _ _ _ _ (SpAIBinder_read_live _ _ _ Ha)). cbn [mBinder].
  unfold bind at 1, SpAIBinder_init. rewrite Hb.
  set (w1 := mkWorld _ _ _ _).
  assert (Ha1 : binders w1 !! a = Some {| mBinder := H |})
    by (subst w1; cbn; by rewrite lookup_insert_ne).
  unfold bind at 1. rewrite (SpAIBinder_dtor_eval _ _ _ Ha1). cbn [mBinder].
  rewrite Hnz. set (w2 := mkWorld _ _ _ _).
  assert (Hb2 : binders w2 !! b = Some {| mBinder := H |}).
  { subst w2 w1; cbn. rewrite lookup_delete_ne by done. apply lookup_insert_eq. }
  rewrite (SpAIBinder_dtor_eval _ _ _ Hb2). cbn [mBinder]. rewrite Hnz.
  eexists _, _. split; [reflexivity|]. subst w2 w1; cbn [calls binders].
  split_and!.
  - by rewrite <- app_assoc.
  - reflexivity.
  - cbn. rewrite !decide_True by done. lia.
  - rewrite (delete_delete _ b a), delete_insert_eq, (delete_id _ b) by done.
    rewrite (owners_live H _ _ _ Ha). cbn. by rewrite decide_True.
Qed.

(** Storing [v] through [getR()] replaces the held handle without any call:
    an [SpAIBinder] constructed on [t], overwritten with [v] and destroyed
    releases [v] alone (nothing when [v] is null); a [t] other than [v] is
    never released. *)
Theorem store_through_getR_skips_release w this (t v : N) :
  binders w !! this = None ->
  exists w' new,
    SpAIBinder_fill this t v w = Some (tt, w') /\
    calls w' = calls w ++ new /\
    new = decStrong <$> filter (fun h => h <> nullptr) [v] /\
    (t <> v -> count_call (decStrong t) new = 0%nat) /\
    binders w' = binders w.
Proof.
  intros Hn. unfold SpAIBinder_fill, SpAIBinder_ctor.
  unfold bind at 1, SpAIBinder_init. rewrite Hn.
  set (w0 := mkWorld _ _ _ _).
  assert (H0 : binders w0 !! this = Some {| mBinder := t |})
    by (subst w0; cbn; apply lookup_insert_eq).
  unfold SpAIBinder_getR.
  unfold bind at 1 2. rewrite (SpAIBinder_read_live _ _ _ H0). unfold ret.
  unfold bind at 1, SpAIBinder_store, SpAIBinder_write. rewrite H0.
  erewrite SpAIBinder_dtor_eval by (cbn; apply lookup_insert_eq).
  cbn [mBinder binders calls ext boxes]. rewrite filter_cons, filter_nil.
  destruct (N.eqb_spec v nullptr) as [Hz|Hz].
  - rewrite decide_False by (by intros ?).
    eexists _, []. split_and!; [reflexivity|by rewrite app_nil_r|done|done|].
    subst w0; cbn. by rewrite !delete_insert_eq, delete_id.
  - rewrite decide_True by done.
    eexists _, _. split_and!; [reflexivity|reflexivity|reflexivity| |].
    + intros Htv. rewrite count_call_cons, decide_False by congruence. done.
    + subst w0; cbn. by rewrite !delete_insert_eq, delete_id.
Qed.

End SpAIBinder_ownership.

(** ** More on boxes *)

Section ScopedA_more.
Context {Ext : Type} `{RT : Runtime Ext}.
Implicit Types (w : World Ext) (this result : N) (d : Deleter).

(** Storing [v] through a box's [getR()] replaces the held handle without
    destroying it: a box constructed on [t], overwritten with [v] and
    destroyed passes [v] alone to [Destroy]; a [t] other than [v] is never
    destroyed. *)
Theorem box_store_through_getR_skips_destroy d w this (t v : N) :
  boxes w !! this = None ->
  exists w' new,
    ScopedA_fill d this t v w = Some (tt, w') /\
    calls w' = calls w ++ new /\
    new = [destroy d v] /\
    (t <> v -> count_call (destroy d t) new = 0%nat) /\
    boxes w' = boxes w.
Proof.
  intros Hn. unfold ScopedA_fill, ScopedA_ctor.
  unfold bind at 1, ScopedA_init. rewrite Hn.
  set (w0 := mkWorld _ _ _ _).
  assert (H0 : boxes w0 !! this = Some {| mT := t |})
    by (subst w0; cbn; apply lookup_insert_eq).
  unfold ScopedA_getR.
  unfold bind at 1 2. rewrite (ScopedA_read_live _ _ _ H0). unfold ret.
  unfold bind at 1, ScopedA_store, ScopedA_write. rewrite H0.
  erewrite ScopedA_dtor_eval by (cbn; apply lookup_insert_eq).
  cbn [mT binders calls ext boxes].
  eexists _, _. split_and!; [reflexivity|reflexivity|reflexivity| |].
  - intros Htv. rewrite count_call_cons, decide_False by congruence. done.
  - subst w0; cbn. by rewrite !delete_insert_eq, delete_id.
Qed.

(** [set] does not compare its argument with the held handle: setting a box
    to the handle it already holds destroys that handle and keeps it, and
    the destructor then destroys it a second time. *)
Theorem reset_to_held_destroys_twice d w this s :
  boxes w !! this = Some s ->
  exists w1 w' new,
    (let* t := ScopedA_get this in ScopedA_set d this t) w = Some (tt, w1) /\
    calls w1 = calls w ++ [destroy d (mT s)] /\
    boxes w1 !! this = Some s /\
    reset_to_held_then_destroy d this w = Some (tt, w') /\
    calls w' = calls w ++ new /\
    new = [destroy d (mT s); destroy d (mT s)] /\
    count_call (destroy d (mT s)) new = 2%nat.
Proof.
  intros Hs. unfold reset_to_held_then_destroy, ScopedA_get.
  rewrite !(bind_Some _ _ _ _ _ (ScopedA_read_live _ _ _ Hs)).
  unfold bind. rewrite (ScopedA_set_eval _ _ _ _ _ Hs).
  erewrite ScopedA_dtor_eval by (cbn; apply lookup_insert_eq).
  cbn [mT calls boxes]. eexists _, _, _. split_and!; try reflexivity.
  - cbn. rewrite lookup_insert_eq. by destruct s.
  - by rewrite <- app_assoc.
  - rewrite !count_call_cons, !decide_True by done. done.
Qed.

(** Promoting and dropping the result gives back exactly the count the
    promotion brought: [AIBinder_decStrong] is called once on the promoted
    handle when it is not null and not at all when the promotion failed; the
    weak box is as before. *)
Theorem promote_and_drop_returns_count w this result s :
  boxes w !! this = Some s ->
  binders w !! result = None ->
  exists w' new,
    promote_and_drop this result w = Some (tt, w') /\
    calls w' = calls w ++ new /\
    new = promote (mT s) ::
          (decStrong <$> filter (fun h => h <> nullptr)
                           [(rt_promote (mT s) (ext w)).1]) /\
    count_call (decStrong nullptr) new = 0%nat /\
    binders w' = binders w /\
    boxes w' = boxes w.
Proof.
  intros Hs Hn. unfold promote_and_drop, bind.
  rewrite (ScopedAIBinder_Weak_promote_eval _ _ _ _ Hs Hn).
  erewrite SpAIBinder_dtor_eval by (cbn; apply lookup_insert_eq).
  cbn [mBinder binders calls ext boxes].
  destruct (rt_promote (mT s) (ext w)) as [b e]; cbn [fst snd].
  rewrite filter_cons, filter_nil.
  destruct (N.eqb_spec b nullptr) as [Hz|Hz].
  - rewrite decide_False by (by intros ?).
    eexists _, _. split_and!; try reflexivity.
    cbn. by rewrite delete_insert_eq, delete_id.
  - rewrite decide_True by done.
    eexists _, _. split_and!; try reflexivity.
    + by rewrite <- app_assoc.
    + rewrite count_call_cons, decide_False by done.
      change (decStrong <$> [b]) with [decStrong b].
      rewrite count_call_cons, decide_False by congruence. done.
    + cbn. by rewrite delete_insert_eq, delete_id.
Qed.

(** Any number of [isOk()] calls leaves the status box holding its handle:
    they log one [AStatus_isOk] call each when the handle is not null and
    nothing when it is, and the destructor afterwards passes the handle to
    [AStatus_delete] once. *)
Theorem isOk_keeps_status w this s (n : nat) :
  boxes w !! this = Some s ->
  exists rs w1 w',
    ScopedAStatus_isOks this n w = Some (rs, w1) /\
    length rs = n /\
    calls w1 = calls w ++
      (if mT s =? nullptr then [] else replicate n (isOk (mT s))) /\
    boxes w1 = boxes w /\
    ScopedAStatus_dtor this w1 = Some (tt, w') /\
    calls w' = calls w1 ++ [destroy AStatus_delete (mT s)] /\
    destroyed AStatus_delete (calls w') =
      destroyed AStatus_delete (calls w) ++ [mT s].
Proof.
  intros Hs.
  assert (Hn : exists rs w1,
    ScopedAStatus_isOks this n w = Some (rs, w1) /\
    length rs = n /\
    calls w1 = calls w ++
      (if mT s =? nullptr then [] else replicate n (isOk (mT s))) /\
    boxes w1 = boxes w).
  { revert w Hs. induction n as [|n IH]; intros w Hs.
    - exists [], w. cbn. by destruct (mT s =? nullptr); rewrite app_nil_r.
    - cbn [ScopedAStatus_isOks]. unfold bind at 1.
      rewrite (ScopedAStatus_isOk_eval _ _ _ Hs).
      destruct (mT s =? nullptr) eqn:Hz.
      + destruct (IH w Hs) as (rs & w1 & Hrun & Hlen & Hc & Hb).
        unfold bind, ret. rewrite Hrun.
        eexists _, _. split; [reflexivity|]. cbn. by rewrite Hlen.
      + set (w0 := mkWorld _ _ _ _).
        destruct (IH w0 Hs) as (rs & w1 & Hrun & Hlen & Hc & Hb).
        unfold bind, ret. rewrite Hrun.
        eexists _, _. split; [reflexivity|]. cbn [length]. rewrite Hlen.
        split; [done|]. rewrite Hc, Hb. subst w0; cbn.
        by rewrite <- app_assoc. }
  destruct Hn as (rs & w1 & Hrun & Hlen & Hc & Hb).
  assert (H1 : boxes w1 !! this = Some s) by by rewrite Hb.
  pose proof (ScopedA_dtor_eval AStatus_delete _ _ _ H1) as Hd.
  eexists rs, w1, _.
  split_and!; [exact Hrun|exact Hlen|exact Hc|exact Hb|exact Hd|reflexivity|].
  cbn [calls]. rewrite Hc, !destroyed_app.
  assert (Hnone : destroyed AStatus_delete
            (if mT s =? nullptr then [] else replicate n (isOk (mT s))) = []).
  { destruct (mT s =? nullptr); [done|].
    clear. induction n as [|n IH]; [done|]. by cbn. }
  rewrite Hnone, app_nil_r. unfold destroyed at 3; cbn.
  by rewrite decide_True.
Qed.

(** Over its whole life a box passes every value it stored, null or not
    and repeated or not, to its own [Destroy], once per time it was stored
    and in that order; it calls no other delete function and nothing else
    of the runtime. *)
Theorem box_lifecycle_log d w this (t : N) (ts : list N) :
  boxes w !! this = None ->
  exists w' new,
    box_lifecycle d this t ts w = Some (tt, w') /\
    calls w' = calls w ++ new /\
    new = destroy d <$> (t :: ts) /\
    (forall d', d' <> d -> destroyed d' new = []) /\
    (forall h, count_call (destroy d h) new
               = length (filter (fun x => x = h) (t :: ts))) /\
    boxes w' = boxes w /\
    binders w' = binders w.
Proof.
  intros Hn.
  set (w0 := mkWorld (ext w) (calls w) (binders w) (<[this := {| mT := t |}]> (boxes w))).
  assert (Hctor : ScopedA_ctor this t w = Some (tt, w0))
    by (unfold ScopedA_ctor, ScopedA_init; by rewrite Hn).
  assert (H0 : boxes w0 !! this = Some {| mT := t |})
    by (subst w0; cbn; by rewrite lookup_insert_eq).
  destruct (ScopedA_sets_eval d this ts w0 t H0) as (w1 & Hrun & Hc & Hb & Hx).
  assert (H1 : boxes w1 !! this = Some {| mT := default t (last ts) |})
    by (rewrite Hb; by rewrite lookup_insert_eq).
  pose proof (ScopedA_dtor_eval d _ _ _ H1) as Hd. cbn [mT] in Hd.
  assert (Hall : removelast (t :: ts) ++ [default t (last ts)] = t :: ts).
  { clear. revert t. induction ts as [|x ts IH]; intros t; [done|].
    change (removelast (t :: x :: ts)) with (t :: removelast (x :: ts)).
    rewrite last_cons. cbn [app]. f_equal. rewrite <- (IH x) at 2.
    by destruct (last ts). }
  eexists _, (destroy d <$> (t :: ts)). split_and!.
  - unfold box_lifecycle, bind. by rewrite Hctor, Hrun, Hd.
  - cbn [calls]. rewrite Hc. subst w0; cbn [calls].
    rewrite <- app_assoc. f_equal.
    rewrite <- Hall at 2. by rewrite fmap_app.
  - reflexivity.
  - intros d' Hne. generalize (t :: ts). intros l.
    induction l as [|x l IH]; [done|].
    unfold destroyed in *. cbn. by rewrite decide_False.
  - intros h. apply count_call_destroy.
  - cbn [boxes]. rewrite Hb. subst w0; cbn [boxes].
    by rewrite !delete_insert_eq, delete_id.
  - cbn [binders]. by rewrite Hx.
Qed.

End ScopedA_more.

(** ** The further properties at concrete worlds *)

Lemma binder_lifecycle_releases_adopted_witness :
  binders (world0 [] []) !! 1 = None /\
  exists w',
    binder_lifecycle 1 7 [nullptr; 6; 6] (world0 [] []) = Some (tt, w') /\
    calls w' = [decStrong 7; decStrong 6; decStrong 6].
Proof.
  split; [reflexivity|].
  destruct (binder_lifecycle_releases_adopted (world0 [] []) 1 7 [nullptr; 6; 6])
    as (w' & new & Hrun & Hcalls & -> & _); [reflexivity|].
  exists w'. split; [exact Hrun|exact Hcalls].
Defined.

Lemma null_binder_lifecycle_is_silent_witness :
  binders (world0 [(2, 7)] []) !! 1 = None /\
  null_binder_lifecycle 1 (world0 [(2, 7)] []) = Some (tt, world0 [(2, 7)] []).
Proof.
  split; [reflexivity|].
  apply (null_binder_lifecycle_is_silent (world0 [(2, 7)] []) 1). reflexivity.
Defined.

(** [b] is copied from [a], assigned to itself and back to [a]; both are
    then destroyed. *)
Lemma owners_follow_counts_witness :
  exists w',
    run_ops [OpCopy 2 1; OpAssign 2 2; OpAssign 1 2; OpDtor 1; OpDtor 2]
      (world0 [(1, 7)] []) = Some (tt, w') /\
    binders w' = ∅ /\
    strong_delta 7 (calls w') = (-1)%Z.
Proof.
  eexists. split; [vm_compute; reflexivity|]. split; [reflexivity|].
  destruct (owners_follow_counts (world0 [(1, 7)] [])
              [OpCopy 2 1; OpAssign 2 2; OpAssign 1 2; OpDtor 1; OpDtor 2] _
              ltac:(vm_compute; reflexivity))
    as (new & Hcalls & _ & _ & _ & Hend).
  cbn in Hcalls. subst new. cbn [calls].
  rewrite (Hend eq_refl 7) by discriminate. reflexivity.
Defined.

Lemma adopt_incremented_is_copy_witness :
  2 <> 1 /\
  adopt_incremented 2 1 (world0 [(1, 7)] []) = SpAIBinder_copy 2 1 (world0 [(1, 7)] []).
Proof.
  split; [discriminate|].
  apply (adopt_incremented_is_copy (world0 [(1, 7)] []) 2 1). discriminate.
Defined.

Lemma adopt_raw_releases_twice_witness :
  7 <> nullptr /\
  binders (world0 [(1, 7)] []) !! 1 = Some {| mBinder := 7 |} /\
  binders (world0 [(1, 7)] []) !! 2 = None /\
  exists w',
    adopt_raw_then_destroy_both 1 2 (world0 [(1, 7)] []) = Some (tt, w') /\
    calls w' = [decStrong 7; decStrong 7].
Proof.
  split; [discriminate|]. split; [reflexivity|]. split; [reflexivity|].
  destruct (adopt_raw_releases_twice (world0 [(1, 7)] []) 1 2 7)
    as (w' & new & Hrun & Hcalls & -> & _);
    [discriminate|reflexivity|reflexivity|].
  exists w'. split; [exact Hrun|exact Hcalls].
Defined.

Lemma store_through_getR_skips_release_witness :
  binders (world0 [] []) !! 1 = None /\
  exists w',
    SpAIBinder_fill 1 7 6 (world0 [] []) = Some (tt, w') /\
    calls w' = [decStrong 6].
Proof.
  split; [reflexivity|].
  destruct (store_through_getR_skips_release (world0 [] []) 1 7 6)
    as (w' & new & Hrun & Hcalls & -> & _); [reflexivity|].
  exists w'. split; [exact Hrun|exact Hcalls].
Defined.

Lemma box_store_through_getR_skips_destroy_witness :
  boxes (world0 [] []) !! 1 = None /\
  exists w',
    ScopedA_fill AParcel_delete 1 nullptr 3 (world0 [] []) = Some (tt, w') /\
    calls w' = [destroy AParcel_delete 3].
Proof.
  split; [reflexivity|].
  destruct (box_store_through_getR_skips_destroy
              AParcel_delete (world0 [] []) 1 nullptr 3)
    as (w' & new & Hrun & Hcalls & -> & _); [reflexivity|].
  exists w'. split; [exact Hrun|exact Hcalls].
Defined.

Lemma reset_to_held_destroys_twice_witness :
  boxes (world0 [] [(1, 3)]) !! 1 = Some {| mT := 3 |} /\
  exists w',
    reset_to_held_then_destroy AParcel_delete 1 (world0 [] [(1, 3)]) = Some (tt, w') /\
    calls w' = [destroy AParcel_delete 3; destroy AParcel_delete 3].
Proof.
  split; [reflexivity|].
  destruct (reset_to_held_destroys_twice
              AParcel_delete (world0 [] [(1, 3)]) 1 {| mT := 3 |})
    as (w1 & w' & new & _ & _ & _ & Hrun & Hcalls & -> & _); [reflexivity|].
  exists w'. split; [exact Hrun|exact Hcalls].
Defined.

(** The weak token [8] refers to a binder that is gone. *)
Lemma promote_and_drop_returns_count_witness :
  boxes (world0 [] [(1, 8)]) !! 1 = Some {| mT := 8 |} /\
  binders (world0 [] [(1, 8)]) !! 2 = None /\
  exists w',
    promote_and_drop 1 2 (world0 [] [(1, 8)]) = Some (tt, w') /\
    calls w' = [promote 8].
Proof.
  split; [reflexivity|]. split; [reflexivity|].
  destruct (promote_and_drop_returns_count (world0 [] [(1, 8)]) 1 2 {| mT := 8 |})
    as (w' & new & Hrun & Hcalls & -> & _); [reflexivity|reflexivity|].
  exists w'. split; [exact Hrun|exact Hcalls].
Defined.

Lemma isOk_keeps_status_witness :
  boxes (world0 [] [(1, 5)]) !! 1 = Some {| mT := 5 |} /\
  exists rs w1,
    ScopedAStatus_isOks 1 2 (world0 [] [(1, 5)]) = Some (rs, w1) /\
    calls w1 = [isOk 5; isOk 5] /\
    boxes w1 = boxes (world0 [] [(1, 5)]).
Proof.
  split; [reflexivity|].
  destruct (isOk_keeps_status (world0 [] [(1, 5)]) 1 {| mT := 5 |} 2)
    as (rs & w1 & w' & Hrun & _ & Hcalls & Hboxes & _); [reflexivity|].
  exists rs, w1. split; [exact Hrun|]. split; [exact Hcalls|exact Hboxes].
Defined.

(** A [ScopedAIBinder_DeathRecipient] that is reset to the handle it was
    constructed on. *)
Lemma box_lifecycle_log_witness :
  boxes (world0 [] []) !! 1 = None /\
  exists w',
    box_lifecycle AIBinder_DeathRecipient_delete 1 3 [nullptr; 3] (world0 [] [])
      = Some (tt, w') /\
    destroyed AIBinder_DeathRecipient_delete (calls w') = [3; nullptr; 3] /\
    destroyed AIBinder_Weak_delete (calls w') = [].
Proof.
  split; [reflexivity|].
  destruct (box_lifecycle_log AIBinder_DeathRecipient_delete
              (world0 [] []) 1 3 [nullptr; 3])
    as (w' & new & Hrun & Hcalls & -> & _); [reflexivity|].
  exists w'. split; [exact Hrun|]. rewrite Hcalls. split; reflexivity.
Defined.
